(** * Project manager: the project API and the browser-side project list

    The development follows the two source files of the repository:
    the Express server (routes over the [projects] table) and the React
    front end ([App], its three mutation handlers, and [ClientsPage]). *)

From Stdlib Require Import List String Ascii Bool ZArith QArith Lia Permutation Sorted.
From Stdlib Require DecimalString.
Import ListNotations.
Local Open Scope string_scope.
Local Open Scope list_scope.
Local Open Scope Z_scope.
Set Warnings "-register-all".

(** ** JavaScript values

    Requests and responses carry JSON.  A JSON number is finite, so it is
    kept as a rational; a string is a sequence of character codes below 256. *)

Inductive jsval : Type :=
| JUndefined
| JNull
| JBool (b : bool)
| JNum (q : Q)
| JStr (s : string)
| JArr (items : list jsval)
| JObj (props : list (string * jsval)).

(** ToBoolean: what [!v], [v || d] and [v ? a : b] test. *)
Definition truthy (v : jsval) : bool :=
  match v with
  | JUndefined | JNull => false
  | JBool b => b
  | JNum q => negb (Qeq_bool q 0)
  | JStr s => negb (String.eqb s "")
  | JArr _ | JObj _ => true
  end.

(** [a || b] *)
Definition js_or (a b : jsval) : jsval := if truthy a then a else b.

(** A field of the request body that holds text, or is absent or null. *)
Definition text (f : option string) : jsval :=
  match f with Some s => JStr s | None => JUndefined end.

(** [f || ''] on a text field. *)
Definition or_empty (f : option string) : string :=
  match f with
  | Some s => if truthy (JStr s) then s else ""
  | None => ""
  end.

(** [f || 0] on a numeric field. *)
Definition or_zero (f : option Q) : Q :=
  match f with
  | Some q => if truthy (JNum q) then q else 0%Q
  | None => 0%Q
  end.

(** ** The server *)

(** [req.body] as the handlers destructure it.  The text and numeric fields
    have the types of their columns; [finished] is any JSON value. *)
Module Body.
Record t := make {
  title : option string;
  description : option string;
  deadline : option string;
  person : option string;
  client : option string;
  contact : option string;
  achievements : option Q;
  price : option Q;
  finished : jsval
}.
End Body.

(** The nine values bound to the placeholders of a statement; [None] is
    SQL NULL (an [undefined] or [null] argument binds NULL). *)
Module Bound.
Record t := make {
  title : option string;
  description : option string;
  deadline : option string;
  person : option string;
  client : option string;
  contact : option string;
  achievements : option Q;
  price : option Q;
  finished : Z
}.
End Bound.

(** A row of the [projects] table:
    [id INTEGER PRIMARY KEY AUTOINCREMENT, title TEXT NOT NULL,
     description TEXT, deadline TEXT NOT NULL, person TEXT NOT NULL,
     client TEXT, contact TEXT, achievements REAL, price REAL,
     finished INTEGER]. *)
Record row := mkRow {
  id : Z;
  title : string;
  description : option string;
  deadline : string;
  person : string;
  client : option string;
  contact : option string;
  achievements : option Q;
  price : option Q;
  finished : Z
}.

(** The table in rowid order, with the AUTOINCREMENT counter that the
    engine keeps for it (the largest rowid ever handed out). *)
Record store := mkStore {
  projects : list row;
  sqlite_sequence : Z
}.

Definition empty_store : store := mkStore [] 0.

Definition ids (s : store) : list Z := map id (projects s).

Definition max_rowid (rs : list row) : Z :=
  fold_right (fun r m => Z.max (id r) m) 0 rs.

(** AUTOINCREMENT: one more than the largest rowid that ever existed. *)
Definition next_rowid (s : store) : Z :=
  Z.max (sqlite_sequence s) (max_rowid (projects s)) + 1.

(** The row that a statement writes under rowid [i]; [None] when a
    NOT NULL column would receive NULL. *)
Definition written (i : Z) (v : Bound.t) : option row :=
  match Bound.title v, Bound.deadline v, Bound.person v with
  | Some t, Some d, Some p =>
      Some (mkRow i t (Bound.description v) d p (Bound.client v)
                  (Bound.contact v) (Bound.achievements v) (Bound.price v)
                  (Bound.finished v))
  | _, _, _ => None
  end.

(** [INSERT INTO projects (...) VALUES (?, ?, ?, ?, ?, ?, ?, ?, ?)];
    on success the new store and [this.lastID]. *)
Definition INSERT (s : store) (v : Bound.t) : option (store * Z) :=
  match written (next_rowid s) v with
  | Some r => Some (mkStore (projects s ++ [r]) (id r), id r)
  | None => None
  end.

Definition has_id (i : Z) (r : row) : bool := id r =? i.

(** [UPDATE projects SET title = ?, ..., finished = ? WHERE id = ?] *)
Definition UPDATE (s : store) (v : Bound.t) (i : Z) : option store :=
  if existsb (has_id i) (projects s) then
    match written i v with
    | Some r' =>
        Some (mkStore (map (fun r => if has_id i r then r' else r) (projects s))
                      (sqlite_sequence s))
    | None => None
    end
  else Some s.

(** [DELETE FROM projects WHERE id = ?] *)
Definition DELETE (s : store) (i : Z) : store :=
  mkStore (filter (fun r => negb (has_id i r)) (projects s)) (sqlite_sequence s).

(** [SELECT * FROM projects] *)
Definition SELECT_all (s : store) : list row := projects s.

(** [SELECT * FROM projects WHERE id = ?] through [db.get]: the first
    matching row, or [undefined]. *)
Definition SELECT_by_id (s : store) (i : Z) : option row :=
  find (has_id i) (projects s).

(** What a handler sends.  [Undefined] is [res.json(undefined)]: the
    response is sent with its status and no body. *)
Inductive payload : Type :=
| Rows (rs : list row)
| Row (r : row)
| Undefined
| ErrorMessage (msg : string)
| SuccessTrue.

Record response := mkResponse {
  status : Z;
  body : payload
}.

(** [res.json(x)] leaves the status at 200. *)
Definition res_json (p : payload) : response := mkResponse 200 p.

Definition res_json_row (r : option row) : payload :=
  match r with Some r => Row r | None => Undefined end.

(** An error response is [{ error: <message> }] under status 400 or 500. *)
Definition is_error (r : response) : bool :=
  match body r with
  | ErrorMessage _ => (400 <=? status r)
  | _ => false
  end.

(** [app.get('/api/projects')] *)
Definition app_get (s : store) : store * response :=
  (s, res_json (Rows (SELECT_all s))).

(** [app.post('/api/projects')] *)
Definition app_post (s : store) (b : Body.t) : store * response :=
  if negb (truthy (text (Body.title b)))
     || negb (truthy (text (Body.deadline b)))
     || negb (truthy (text (Body.person b)))
  then (s, mkResponse 400 (ErrorMessage "Title, deadline and person are required"))
  else
    match INSERT s (Bound.make (Body.title b)
                               (Some (or_empty (Body.description b)))
                               (Body.deadline b)
                               (Body.person b)
                               (Some (or_empty (Body.client b)))
                               (Some (or_empty (Body.contact b)))
                               (Some (or_zero (Body.achievements b)))
                               (Some (or_zero (Body.price b)))
                               (if truthy (Body.finished b) then 1 else 0)) with
    | None => (s, mkResponse 500 (ErrorMessage "Database insertion error"))
    | Some (s', insertedId) =>
        (s', mkResponse 201 (res_json_row (SELECT_by_id s' insertedId)))
    end.

(** [app.put('/api/projects/:id')]; [projectId] is the integer that the
    path segment denotes under the key column's affinity. *)
Definition app_put (s : store) (projectId : Z) (b : Body.t) : store * response :=
  match UPDATE s (Bound.make (Body.title b)
                             (Body.description b)
                             (Body.deadline b)
                             (Body.person b)
                             (Body.client b)
                             (Body.contact b)
                             (Body.achievements b)
                             (Body.price b)
                             (if truthy (Body.finished b) then 1 else 0))
               projectId with
  | None => (s, mkResponse 500 (ErrorMessage "Database update error"))
  | Some s' => (s', res_json (res_json_row (SELECT_by_id s' projectId)))
  end.

(** [app.delete('/api/projects/:id')] *)
Definition app_delete (s : store) (projectId : Z) : store * response :=
  (DELETE s projectId, res_json SuccessTrue).

(** Requests, and the server run over a sequence of them. *)
Inductive request : Type :=
| List_
| Create (b : Body.t)
| Update (projectId : Z) (b : Body.t)
| Delete (projectId : Z).

Definition handle (s : store) (r : request) : store * response :=
  match r with
  | List_ => app_get s
  | Create b => app_post s b
  | Update i b => app_put s i b
  | Delete i => app_delete s i
  end.

Definition serve (s : store) (rs : list request) : store :=
  fold_left (fun s r => fst (handle s r)) rs s.

(** ** The front end *)

Fixpoint assoc {A : Type} (k : string) (o : list (string * A)) : option A :=
  match o with
  | [] => None
  | (k', v) :: o' => if String.eqb k k' then Some v else assoc k o'
  end.

(** [v.k] for the names this program reads from a record ([id], [client],
    [contact]).  Reading a property of [undefined] or [null] throws, which
    is [None]; on any other value a name that is not an own property reads
    as [undefined], none of the three being inherited from a prototype. *)
Definition member (v : jsval) (k : string) : option jsval :=
  match v with
  | JUndefined | JNull => None
  | JObj o => Some (match assoc k o with Some x => x | None => JUndefined end)
  | _ => Some JUndefined
  end.

(** [a === b].  Two objects are equal only when they are one and the same
    object; the values compared here are taken from different documents. *)
Definition strict_eq (a b : jsval) : bool :=
  match a, b with
  | JUndefined, JUndefined => true
  | JNull, JNull => true
  | JBool x, JBool y => Bool.eqb x y
  | JNum x, JNum y => Qeq_bool x y
  | JStr x, JStr y => String.eqb x y
  | _, _ => false
  end.

(** [Array.prototype.filter] and [Array.prototype.map] with a callback
    that may throw. *)
Fixpoint Array_filter {A : Type} (f : A -> option bool) (l : list A)
  : option (list A) :=
  match l with
  | [] => Some []
  | x :: l' =>
      match f x with
      | None => None
      | Some keep =>
          match Array_filter f l' with
          | None => None
          | Some r => Some (if keep then x :: r else r)
          end
      end
  end.

Fixpoint Array_map {A B : Type} (f : A -> option B) (l : list A)
  : option (list B) :=
  match l with
  | [] => Some []
  | x :: l' =>
      match f x with
      | None => None
      | Some y =>
          match Array_map f l' with
          | None => None
          | Some r => Some (y :: r)
          end
      end
  end.

Definition opt_text (f : option string) : jsval :=
  match f with Some s => JStr s | None => JNull end.

Definition opt_number (f : option Q) : jsval :=
  match f with Some q => JNum q | None => JNull end.

(** A row as [res.json(row)] serialises it and [res.json()] reads it back. *)
Definition row_json (r : row) : jsval :=
  JObj [ ("id", JNum (inject_Z (id r)));
         ("title", JStr (title r));
         ("description", opt_text (description r));
         ("deadline", JStr (deadline r));
         ("person", JStr (person r));
         ("client", opt_text (client r));
         ("contact", opt_text (contact r));
         ("achievements", opt_number (achievements r));
         ("price", opt_number (price r));
         ("finished", JNum (inject_Z (finished r))) ].

(** How [fetch(...)] followed by [.then((res) => res.json())] settles:
    [fetch] rejects on a network failure; otherwise there is a response of
    some status whose body either parses to a value or, being empty or not
    JSON, makes [res.json()] reject. *)
Inductive fetched : Type :=
| NetworkError
| Response (status : Z) (json : option jsval).

(** [res.ok] *)
Definition ok (f : fetched) : bool :=
  match f with
  | NetworkError => false
  | Response st _ => (200 <=? st) && (st <=? 299)
  end.

(** What the browser receives for a response of the server. *)
Definition received (r : response) : fetched :=
  Response (status r)
    match body r with
    | Rows rs => Some (JArr (map row_json rs))
    | Row x => Some (row_json x)
    | ErrorMessage msg => Some (JObj [("error", JStr msg)])
    | SuccessTrue => Some (JObj [("success", JBool true)])
    | Undefined => None
    end.

(** [addProject]: the project list after the chain
    [.then((newProject) => setProjects((prev) => [...prev, newProject]))
     .catch((err) => console.error(err))] has settled. *)
Definition addProject (prev : list jsval) (f : fetched) : list jsval :=
  match f with
  | Response _ (Some newProject) => prev ++ [newProject]
  | _ => prev
  end.

(** [deleteProject(id)]:
    [.then(() => setProjects((prev) => prev.filter((p) => p.id !== id)))];
    [None] when the state update throws. *)
Definition deleteProject (prev : list jsval) (id : jsval) (f : fetched)
  : option (list jsval) :=
  match f with
  | Response _ (Some _) =>
      Array_filter
        (fun p => match member p "id" with
                  | Some p_id => Some (negb (strict_eq p_id id))
                  | None => None
                  end)
        prev
  | _ => Some prev
  end.

(** [toggleFinished]:
    [.then((updatedRow) => setProjects((prev) =>
       prev.map((p) => (p.id === updatedRow.id ? updatedRow : p))))];
    [None] when the state update throws. *)
Definition toggleFinished (prev : list jsval) (f : fetched)
  : option (list jsval) :=
  match f with
  | Response _ (Some updatedRow) =>
      Array_map
        (fun p => match member p "id", member updatedRow "id" with
                  | Some p_id, Some row_id =>
                      Some (if strict_eq p_id row_id then updatedRow else p)
                  | _, _ => None
                  end)
        prev
  | _ => Some prev
  end.

(** ** The clients page *)

(** The characters below code 256 that [String.prototype.trim] strips:
    TAB, LF, VT, FF, CR, SPACE and NO-BREAK SPACE. *)
Definition is_white_space (c : ascii) : bool :=
  let n := nat_of_ascii c in
  (((9 <=? n) && (n <=? 13)) || (n =? 32) || (n =? 160))%nat.

Fixpoint trimStart (s : string) : string :=
  match s with
  | EmptyString => EmptyString
  | String c s' => if is_white_space c then trimStart s' else s
  end.

Fixpoint trimEnd (s : string) : string :=
  match s with
  | EmptyString => EmptyString
  | String c s' =>
      match trimEnd s' with
      | EmptyString => if is_white_space c then EmptyString else String c EmptyString
      | t => String c t
      end
  end.

Definition trim (s : string) : string := trimEnd (trimStart s).

(** [(p.client || '').trim()]; [None] when it throws: [p] is [undefined]
    or [null], or the value has no [trim] method (a truthy value that is
    not a string). *)
Definition client_key (p : jsval) : option string :=
  match member p "client" with
  | Some p_client =>
      match js_or p_client (JStr "") with
      | JStr s => Some (trim s)
      | _ => None
      end
  | None => None
  end.

(** The values of [clientMap]: [{ contact, count }]. *)
Module Info.
Record t := make { contact : jsval; count : Z }.
End Info.

(** The names every object literal inherits from [Object.prototype]; each
    resolves to a function, or for [__proto__] to the prototype itself. *)
Definition Object_prototype : list string :=
  [ "constructor"; "__defineGetter__"; "__defineSetter__"; "hasOwnProperty";
    "__lookupGetter__"; "__lookupSetter__"; "isPrototypeOf";
    "propertyIsEnumerable"; "toString"; "valueOf"; "__proto__";
    "toLocaleString" ].

Definition inherited (key : string) : bool :=
  existsb (String.eqb key) Object_prototype.

(** [clientMap[key]] on the object literal [{}]: an own property, else a
    value found on the prototype, else [undefined]. *)
Inductive found : Type :=
| Own (i : Info.t)
| Inherited
| Missing.

Definition clientMap_get (clientMap : list (string * Info.t)) (key : string)
  : found :=
  match assoc key clientMap with
  | Some i => Own i
  | None => if inherited key then Inherited else Missing
  end.

Fixpoint assign {A : Type} (k : string) (v : A) (o : list (string * A))
  : list (string * A) :=
  match o with
  | [] => [(k, v)]
  | (k', v') :: o' =>
      if String.eqb k k' then (k', v) :: o' else (k', v') :: assign k v o'
  end.

(** The body of [projects.forEach((p) => { ... })]; [None] when it throws.
    In the [else] branch the two updates go to the value [clientMap[key]]
    resolves to.  For an inherited name that value is a built-in object:
    [clientMap] keeps its own properties, and what the writes leave on the
    built-in object is not followed further, so [Object_prototype] is the
    prototype as the language defines it throughout; the writes under the
    name [__proto__] reach the prototype itself, and a list that holds
    that name is followed up to there only.  [p.contact] cannot throw
    once [p.client] has been read, so it is read up front. *)
Definition visit (clientMap : list (string * Info.t)) (p : jsval)
  : option (list (string * Info.t)) :=
  match client_key p, member p "contact" with
  | Some key, Some p_contact =>
      if truthy (JStr key) then
        match clientMap_get clientMap key with
        | Missing =>
            Some (assign key
                    (Info.make (js_or p_contact (JStr "")) 1)
                    clientMap)
        | Own i =>
            let i1 := Info.make (Info.contact i) (Info.count i + 1) in
            let i2 := if negb (truthy (Info.contact i1)) && truthy p_contact
                      then Info.make p_contact (Info.count i1)
                      else i1 in
            Some (assign key i2 clientMap)
        | Inherited => Some clientMap
        end
      else Some clientMap
  | _, _ => None
  end.

Fixpoint forEach {M : Type} (f : M -> jsval -> option M) (ps : list jsval)
  (m : M) : option M :=
  match ps with
  | [] => Some m
  | p :: ps' =>
      match f m p with
      | Some m' => forEach f ps' m'
      | None => None
      end
  end.

(** [Object.keys] lists the own names that are array indices (canonical
    decimal numerals up to 2^32 - 2) in ascending numeric order, then the
    other names in the order of their creation. *)
Definition digit (c : ascii) : option N :=
  let n := N_of_ascii c in
  if ((48 <=? n) && (n <=? 57))%N then Some (n - 48)%N else None.

Fixpoint digits (s : string) (acc : N) : option N :=
  match s with
  | EmptyString => Some acc
  | String c s' =>
      match digit c with
      | Some d => digits s' (10 * acc + d)%N
      | None => None
      end
  end.

Definition array_index (s : string) : option N :=
  match s with
  | EmptyString => None
  | String c s' =>
      if Ascii.eqb c "0" then
        match s' with EmptyString => Some 0%N | _ => None end
      else
        match digits s 0 with
        | Some n => if (n <=? 4294967294)%N then Some n else None
        | None => None
        end
  end.

Fixpoint insert_index (n : N) (k : string) (l : list (N * string))
  : list (N * string) :=
  match l with
  | [] => [(n, k)]
  | (m, k') :: l' =>
      if (n <=? m)%N then (n, k) :: l else (m, k') :: insert_index n k l'
  end.

Fixpoint index_keys (names : list string) : list (N * string) :=
  match names with
  | [] => []
  | k :: names' =>
      match array_index k with
      | Some n => insert_index n k (index_keys names')
      | None => index_keys names'
      end
  end.

Definition is_named (k : string) : bool :=
  match array_index k with Some _ => false | None => true end.

Definition Object_keys {A : Type} (o : list (string * A)) : list string :=
  map snd (index_keys (map fst o)) ++ filter is_named (map fst o).

(** An element of [clients]: [{ name, contact, count }]. *)
Module Client.
Record t := make { name : string; contact : jsval; count : Z }.
End Client.

(** [clientMap[name]] for a name that [Object.keys] returned. *)
Definition own (clientMap : list (string * Info.t)) (name : string) : Info.t :=
  match assoc name clientMap with
  | Some i => i
  | None => Info.make JUndefined 0
  end.

(** [ClientsPage]: the [clients] array the table is rendered from, or
    [None] when building it throws. *)
Definition ClientsPage (projects : list jsval) : option (list Client.t) :=
  match forEach visit projects [] with
  | None => None
  | Some clientMap =>
      Some (map (fun name =>
                   Client.make name (Info.contact (own clientMap name))
                                    (Info.count (own clientMap name)))
                (Object_keys clientMap))
  end.

(** ** The requests of the front end *)

(** The own enumerable properties that [{ ...v }] copies: those of an
    object, the elements of an array and the characters of a string under
    their indices, and none for any other value. *)
Definition index_name (n : nat) : string :=
  DecimalString.NilZero.string_of_uint (Nat.to_uint n).

Fixpoint indexed {A : Type} (f : A -> jsval) (n : nat) (l : list A)
  : list (string * jsval) :=
  match l with
  | [] => []
  | x :: l' => (index_name n, f x) :: indexed f (S n) l'
  end.

Definition spread (v : jsval) : list (string * jsval) :=
  match v with
  | JObj o => o
  | JArr items => indexed (fun x => x) 0 items
  | JStr s =>
      indexed (fun c => JStr (String c EmptyString)) 0 (list_ascii_of_string s)
  | _ => []
  end.

(** [const updated = { ...project, finished: project.finished ? 0 : 1 }]
    in [toggleFinished]; [None] when reading [project.finished] throws. *)
Definition updated (project : jsval) : option jsval :=
  match member project "finished" with
  | Some f =>
      Some (JObj (assign "finished" (JNum (if truthy f then 0 else 1))
                         (spread project)))
  | None => None
  end.

(** [req.body] of a JSON body, as [const { title, ..., finished } = req.body]
    reads it.  [express.json()] yields an object or an array; a field that
    is absent or null is [None]; the result is [None] when the body is
    another value or a text or numeric field holds a value that is not of
    its column's type, which the handlers above do not cover. *)
Definition field (body : jsval) (k : string) : jsval :=
  match body with
  | JObj o => match assoc k o with Some v => v | None => JUndefined end
  | _ => JUndefined
  end.

Definition text_field (v : jsval) : option (option string) :=
  match v with
  | JStr s => Some (Some s)
  | JUndefined | JNull => Some None
  | _ => None
  end.

Definition number_field (v : jsval) : option (option Q) :=
  match v with
  | JNum q => Some (Some q)
  | JUndefined | JNull => Some None
  | _ => None
  end.

Definition and_then {A B : Type} (x : option A) (k : A -> option B)
  : option B :=
  match x with Some a => k a | None => None end.

Definition destructure (body : jsval) : option Body.t :=
  match body with
  | JObj _ | JArr _ =>
      and_then (text_field (field body "title")) (fun title =>
      and_then (text_field (field body "description")) (fun description =>
      and_then (text_field (field body "deadline")) (fun deadline =>
      and_then (text_field (field body "person")) (fun person =>
      and_then (text_field (field body "client")) (fun client =>
      and_then (text_field (field body "contact")) (fun contact =>
      and_then (number_field (field body "achievements")) (fun achievements =>
      and_then (number_field (field body "price")) (fun price =>
      Some (Body.make title description deadline person client contact
                      achievements price (field body "finished"))))))))))
  | _ => None
  end.

(** The integer that the path segment [${v}] denotes for an integral
    number [v]; [None] for any other value, whose request is not followed. *)
Definition path_id (v : jsval) : option Z :=
  match v with
  | JNum q => if Pos.eqb (Qden q) 1 then Some (Qnum q) else None
  | _ => None
  end.

(** The effect on mount: [fetch('/api/projects')], then
    [.then((data) => setProjects(data))]; the state starts as [[]]. *)
Definition mounted (f : fetched) : jsval :=
  match f with
  | Response _ (Some data) => data
  | _ => JArr []
  end.

(** What the buttons of the page do.  [Save] is the form handing a
    project to [addProject]; [Complete n] and [Remove n] are the two
    buttons [ProjectTable] renders for the [n]-th entry [p] of the list:
    [onToggleFinish(p)] and [onDelete(p.id)]. *)
Inductive click : Type :=
| Save (project : jsval)
| Complete (n : nat)
| Remove (n : nat).

(** One click, with the server answering: the store and the project list
    once the request has settled.  [None] when a handler throws or the
    request leaves what is modelled. *)
Definition clicked (s : store) (projects : list jsval) (c : click)
  : option (store * list jsval) :=
  match c with
  | Save project =>
      and_then (destructure project) (fun b =>
      let (s', res) := app_post s b in
      Some (s', addProject projects (received res)))
  | Complete n =>
      match nth_error projects n with
      | None => Some (s, projects)
      | Some p =>
          and_then (updated p) (fun body =>
          and_then (member p "id") (fun p_id =>
          and_then (path_id p_id) (fun projectId =>
          and_then (destructure body) (fun b =>
          let (s', res) := app_put s projectId b in
          and_then (toggleFinished projects (received res)) (fun projects' =>
          Some (s', projects'))))))
      end
  | Remove n =>
      match nth_error projects n with
      | None => Some (s, projects)
      | Some p =>
          and_then (member p "id") (fun p_id =>
          and_then (path_id p_id) (fun projectId =>
          let (s', res) := app_delete s projectId in
          and_then (deleteProject projects p_id (received res)) (fun projects' =>
          Some (s', projects'))))
      end
  end.

Fixpoint session (s : store) (projects : list jsval) (cs : list click)
  : option (store * list jsval) :=
  match cs with
  | [] => Some (s, projects)
  | c :: cs' =>
      match clicked s projects c with
      | Some (s', projects') => session s' projects' cs'
      | None => None
      end
  end.

(** A project that passes the check of [app.post]. *)
Definition saveable (project : jsval) : Prop :=
  exists b t d p,
    destructure project = Some b
    /\ Body.title b = Some t /\ t <> ""
    /\ Body.deadline b = Some d /\ d <> ""
    /\ Body.person b = Some p /\ p <> "".

(** The row with its flag turned: what [toggleFinished] asks for. *)
Definition toggled (r : row) : row :=
  mkRow (id r) (title r) (description r) (deadline r) (person r) (client r)
        (contact r) (achievements r) (price r)
        (if finished r =? 0 then 1 else 0).

(** The body [toggleFinished] sends for a row, as [app.put] reads it. *)
Definition toggle_body (r : row) : Body.t :=
  Body.make (Some (title r)) (description r) (Some (deadline r))
            (Some (person r)) (client r) (contact r) (achievements r)
            (price r)
            (JNum (if truthy (JNum (inject_Z (finished r))) then 0 else 1)).

(** Every project handed to [addProject] passes the check of [app.post]. *)
Definition saves_pass (cs : list click) : Prop :=
  Forall (fun c => match c with Save project => saveable project | _ => True end)
         cs.

(** ** [app.post] on any JSON body *)

(** [stmt.run(a1, ..., a9, callback)] of the sqlite3 driver: the values it
    binds to the placeholders, in order.  A first argument that is an array
    is taken as the whole list of parameters, and the arguments after it
    are not bound; a first argument that is a plain object names the
    parameters, which is not followed ([None]). *)
Definition run_parameters (args : list jsval) : option (list jsval) :=
  match args with
  | JArr items :: _ => Some items
  | JObj _ :: _ => None
  | _ => Some args
  end.

(** A value bound to the INTEGER column: a boolean binds as 1 or 0. *)
Definition integer_field (v : jsval) : option Z :=
  match v with
  | JNum q => if Pos.eqb (Qden q) 1 then Some (Qnum q) else None
  | JBool b => Some (if b then 1 else 0)
  | _ => None
  end.

(** The bound values in the types of their columns; a placeholder without
    a value is NULL.  [None] when there are more values than placeholders
    or a value is not of its column's type, which is not followed. *)
Definition columns (params : list jsval) : option Bound.t :=
  if (9 <? List.length params)%nat then None
  else
    and_then (text_field (nth 0 params JUndefined)) (fun title =>
    and_then (text_field (nth 1 params JUndefined)) (fun description =>
    and_then (text_field (nth 2 params JUndefined)) (fun deadline =>
    and_then (text_field (nth 3 params JUndefined)) (fun person =>
    and_then (text_field (nth 4 params JUndefined)) (fun client =>
    and_then (text_field (nth 5 params JUndefined)) (fun contact =>
    and_then (number_field (nth 6 params JUndefined)) (fun achievements =>
    and_then (number_field (nth 7 params JUndefined)) (fun price =>
    and_then (integer_field (nth 8 params JUndefined)) (fun finished =>
    Some (Bound.make title description deadline person client contact
                     achievements price finished)))))))))).

(** [app.post('/api/projects')] with [req.body] any JSON value: the check
    of the three fields, then [stmt.run] with the nine arguments as the
    handler writes them.  [None] where the binding is not followed. *)
Definition app_post_json (s : store) (body : jsval)
  : option (store * response) :=
  let title := field body "title" in
  let description := field body "description" in
  let deadline := field body "deadline" in
  let person := field body "person" in
  let client := field body "client" in
  let contact := field body "contact" in
  let achievements := field body "achievements" in
  let price := field body "price" in
  let finished := field body "finished" in
  if negb (truthy title) || negb (truthy deadline) || negb (truthy person)
  then Some (s, mkResponse 400
                  (ErrorMessage "Title, deadline and person are required"))
  else
    and_then (run_parameters
                [ title; js_or description (JStr ""); deadline; person;
                  js_or client (JStr ""); js_or contact (JStr "");
                  js_or achievements (JNum 0); js_or price (JNum 0);
                  JNum (if truthy finished then 1 else 0) ])
             (fun params =>
    and_then (columns params) (fun values =>
    Some match INSERT s values with
         | None => (s, mkResponse 500 (ErrorMessage "Database insertion error"))
         | Some (s', insertedId) =>
             (s', mkResponse 201 (res_json_row (SELECT_by_id s' insertedId)))
         end)).

(** A Create request whose title is an array of nine values. *)
Definition array_title : jsval :=
  JObj [ ("title",
          JArr [ JStr "Website"; JStr ""; JStr "2024-12-01"; JStr "Alice";
                 JStr ""; JStr ""; JNum 0; JNum 0; JNum 5 ]);
         ("deadline", JStr "2024-12-01");
         ("person", JStr "Alice");
         ("finished", JBool false) ].

(** ** The charts *)

(** In the effect of [ChartsComponent]: [total], [finishedCount] and
    [pendingCount], that is [summaryData], the two bars of the summary
    chart; [None] when the filter callback throws. *)
Definition summaryData (projects : list jsval) : option (list Z) :=
  match Array_filter (fun p => option_map truthy (member p "finished"))
                     projects with
  | Some finished_projects =>
      let total := Z.of_nat (List.length projects) in
      let finishedCount := Z.of_nat (List.length finished_projects) in
      let pendingCount := total - finishedCount in
      Some [finishedCount; pendingCount]
  | None => None
  end.

(** ** The project form *)

(** [e.target] of a change event: [{ name, value, type, checked }]. *)
Module Target.
Record t := make {
  name : string;
  value : string;
  type : string;
  checked : bool
}.
End Target.

(** The state [ProjectForm] starts from, and returns to after a submit. *)
Definition blank_form : list (string * jsval) :=
  [ ("title", JStr ""); ("deadline", JStr ""); ("person", JStr "");
    ("client", JStr ""); ("contact", JStr ""); ("achievements", JNum 0);
    ("price", JNum 0); ("finished", JNum 0); ("description", JStr "") ].

(** [formState.k] *)
Definition prop (o : list (string * jsval)) (k : string) : jsval :=
  match assoc k o with Some v => v | None => JUndefined end.

(** [handleChange]:
    [{ ...prev, [name]: type === 'checkbox' ? (checked ? 1 : 0) : value }] *)
Definition handleChange (prev : list (string * jsval)) (e : Target.t)
  : list (string * jsval) :=
  assign (Target.name e)
         (if String.eqb (Target.type e) "checkbox"
          then JNum (if Target.checked e then 1 else 0)
          else JStr (Target.value e))
         prev.

(** The name and type of each control the form renders. *)
Definition controls : list (string * string) :=
  [ ("title", "text"); ("deadline", "date"); ("person", "text");
    ("client", "text"); ("contact", "text"); ("achievements", "number");
    ("price", "number"); ("finished", "checkbox");
    ("description", "textarea") ].

Section Submitting.

(** [parseFloat], a function of the language, is left open; [None] is NaN. *)
Variable parseFloat : jsval -> option Q.

(** [handleSubmit]: the payload handed to [onAdd], if any, and the next
    form state.  Without title, deadline or person there is an alert and
    nothing else happens. *)
Definition handleSubmit (formState : list (string * jsval))
  : option jsval * list (string * jsval) :=
  if negb (truthy (prop formState "title"))
     || negb (truthy (prop formState "deadline"))
     || negb (truthy (prop formState "person"))
  then (None, formState)
  else
    let payload :=
      assign "price"
        (JNum (or_zero (parseFloat (prop formState "price"))))
        (assign "achievements"
           (JNum (or_zero (parseFloat (prop formState "achievements"))))
           formState) in
    (Some (JObj payload), blank_form).

End Submitting.

(** ** Vocabulary of the statements *)

(** A required field that is absent (or null) or the empty string. *)
Definition absent_or_empty (f : option string) : Prop :=
  f = None \/ f = Some "".

(** The counter is at least every rowid in the table. *)
Definition bounded (s : store) : Prop :=
  Forall (fun r => id r <= sqlite_sequence s) (projects s).

(** [finished] holds 0 or 1. *)
Definition flag (r : row) : Prop := finished r = 0 \/ finished r = 1.

(** The row an accepted Create writes under rowid [i]. *)
Definition created (i : Z) (t d p : string) (b : Body.t) : row :=
  mkRow i t (Some (or_empty (Body.description b))) d p
        (Some (or_empty (Body.client b))) (Some (or_empty (Body.contact b)))
        (Some (or_zero (Body.achievements b))) (Some (or_zero (Body.price b)))
        (if truthy (Body.finished b) then 1 else 0).

(** The row an Update writes under rowid [i]. *)
Definition replaced (i : Z) (t d p : string) (b : Body.t) : row :=
  mkRow i t (Body.description b) d p (Body.client b) (Body.contact b)
        (Body.achievements b) (Body.price b)
        (if truthy (Body.finished b) then 1 else 0).

(** Sample requests. *)
Definition website : Body.t :=
  Body.make (Some "Website") None (Some "2024-12-01") (Some "Alice")
            None None None None JUndefined.

Definition untitled : Body.t :=
  Body.make (Some "") (Some "draft") (Some "2024-12-01") (Some "Alice")
            None None None None (JBool false).

Definition website_done : Body.t :=
  Body.make (Some "Website") (Some "") (Some "2024-12-01") (Some "Alice")
            (Some "") (Some "") (Some 0%Q) (Some 0%Q) (JBool true).

Definition one_project : store := fst (app_post empty_store website).

(** The name a row is grouped under: its client, no client reading as
    the empty string, without the surrounding white space. *)
Definition client_name (r : row) : string := trim (or_empty (client r)).

(** The rows of a list that are grouped under [k], in order. *)
Definition projects_of (k : string) (rs : list row) : list row :=
  filter (fun r => String.eqb (client_name r) k) rs.

(** The first non-empty contact among rows, or the empty string. *)
Definition first_contact (rs : list row) : string :=
  match find (fun r => truthy (opt_text (contact r))) rs with
  | Some r => or_empty (contact r)
  | None => ""
  end.

(** What [clientMap] holds once the rows [rs] have been visited. *)
Definition tallies (rs : list row) (m : list (string * Info.t)) : Prop :=
  NoDup (map fst m)
  /\ forall k,
       match assoc k m with
       | Some i =>
           k <> "" /\ inherited k = false /\ projects_of k rs <> []
           /\ Info.count i = Z.of_nat (List.length (projects_of k rs))
           /\ Info.contact i = JStr (first_contact (projects_of k rs))
       | None => k = "" \/ inherited k = true \/ projects_of k rs = []
       end.

(** The rows whose client value, as it stands, is [k]. *)
Definition with_client (k : string) (rs : list row) : list row :=
  filter (fun r => String.eqb (or_empty (client r)) k) rs.

(** The clients view in the words of its description: one entry for each
    distinct non-empty client value, counting the rows with that client
    and carrying the first non-empty contact among them. *)
Definition grouped_by_client_value (rs : list row) (view : list Client.t)
  : Prop :=
  NoDup (map Client.name view)
  /\ (forall k, In k (map Client.name view)
                <-> k <> "" /\ exists r, In r rs /\ or_empty (client r) = k)
  /\ (forall c, In c view ->
        Client.count c = Z.of_nat (List.length (with_client (Client.name c) rs))
        /\ Client.contact c
           = JStr (first_contact (with_client (Client.name c) rs))).

(** Sample rows and responses. *)
Definition of_client (i : Z) (c k : string) : row :=
  mkRow i "Website" (Some "") "2024-12-01" "Alice" (Some c) (Some k)
        (Some 0%Q) (Some 0%Q) 0.

Definition insertion_error : jsval :=
  JObj [("error", JStr "Database insertion error")].

Definition deletion_error : jsval :=
  JObj [("error", JStr "Database deletion error")].

Definition validation_error : jsval :=
  JObj [("error", JStr "Title, deadline and person are required")].

Definition acme_beta : list jsval :=
  [ JObj [("client", JStr "Acme"); ("contact", JStr "a@x")];
    JObj [("client", JStr "Acme"); ("contact", JStr "")];
    JObj [("client", JStr "Beta"); ("contact", JStr "b@x")] ].

Definition spaced : list row :=
  [ of_client 1 " Acme" ""; of_client 2 "Acme  " "a@x";
    of_client 3 "   " "c@x" ].

(** What an Update does to one row: the values the handler binds, and the
    row that takes the place of a row of the table. *)
Definition put_values (b : Body.t) : Bound.t :=
  Bound.make (Body.title b) (Body.description b) (Body.deadline b)
             (Body.person b) (Body.client b) (Body.contact b)
             (Body.achievements b) (Body.price b)
             (if truthy (Body.finished b) then 1 else 0).

Definition put_row (i : Z) (b : Body.t) (x : row) : row :=
  match written i (put_values b) with
  | Some r' => if has_id i x then r' else x
  | None => x
  end.

(** A value [ClientsPage] cannot read a client from: [undefined] or
    [null], or a value whose [client] is truthy and not a string. *)
Definition unreadable (p : jsval) : Prop :=
  p = JUndefined \/ p = JNull
  \/ exists c, member p "client" = Some c /\ truthy c = true
               /\ forall s, c <> JStr s.

(** The rows that get counted: the trimmed client is not empty and is
    not an inherited name. *)
Definition countable (r : row) : bool :=
  truthy (JStr (client_name r)) && negb (inherited (client_name r)).

(** The sum of the counts of a view. *)
Definition total_count (view : list Client.t) : Z :=
  fold_right (fun c n => Client.count c + n) 0 view.

(** A list without its repetitions, each element at its first place. *)
Definition first_seen (l : list string) : list string :=
  rev (nodup string_dec (rev l)).

(** The sum of the counts held in [clientMap]. *)
Definition clientMap_total (m : list (string * Info.t)) : Z :=
  fold_right (fun e n => Info.count (snd e) + n) 0 m.

(** The trimmed clients of the rows that get counted, in list order. *)
Definition counted_names (rs : list row) : list string :=
  map client_name (filter countable rs).

(** A change event of one of the form's controls. *)
Definition from_control (e : Target.t) : Prop :=
  In (Target.name e, Target.type e) controls.

(** The form state in the shape the controls keep it in. *)
Definition typed_form (fs : list (string * jsval)) : Prop :=
  exists t d p c k a pr (f : bool) ds,
    fs = [ ("title", JStr t); ("deadline", JStr d); ("person", JStr p);
           ("client", JStr c); ("contact", JStr k); ("achievements", a);
           ("price", pr); ("finished", JNum (if f then 1 else 0));
           ("description", JStr ds) ].

(** A replacement record that leaves the title out. *)
Definition no_title : Body.t :=
  Body.make None (Some "") (Some "2024-12-01") (Some "Alice")
            (Some "") (Some "") (Some 0%Q) (Some 0%Q) (JBool true).


(** No row's trimmed client is a name every object inherits. *)
Definition plain_names (rs : list row) : Prop :=
  Forall (fun r => inherited (trim (or_empty (client r))) = false) rs.

(** * Properties of the server *)

Section Values.

Lemma truthy_text (f : option string) :
  truthy (text f) = true <-> exists s, f = Some s /\ s <> "".
Proof.
  destruct f as [s|]; simpl.
  - rewrite negb_true_iff. split.
    + intros H. exists s. split; [reflexivity|].
      intros ->. discriminate.
    + intros (s' & [= <-] & Hne). now apply String.eqb_neq.
  - split; [discriminate | intros (s & H & _); discriminate].
Qed.

Lemma or_empty_default (f : option string) :
  or_empty f = match f with Some s => s | None => "" end.
Proof.
  destruct f as [s|]; simpl; [|reflexivity].
  destruct (String.eqb_spec s ""); simpl; congruence.
Qed.

Lemma or_zero_default (f : option Q) :
  match f with
  | Some q => (or_zero f == q)%Q
  | None => or_zero f = 0%Q
  end.
Proof.
  destruct f as [q|]; simpl; [|reflexivity].
  destruct (Qeq_bool q 0) eqn:E; simpl.
  - symmetry. now apply Qeq_bool_eq.
  - reflexivity.
Qed.

End Values.

Section Table.

Lemma max_rowid_bound (rs : list row) (r : row) :
  In r rs -> id r <= max_rowid rs.
Proof.
  induction rs as [|x rs IH]; simpl; [tauto|].
  intros [-> | H]; [lia | specialize (IH H); lia].
Qed.

Lemma next_rowid_fresh (s : store) : ~ In (next_rowid s) (ids s).
Proof.
  unfold ids, next_rowid. intros H.
  apply in_map_iff in H as (r & Hid & Hin).
  apply max_rowid_bound in Hin. lia.
Qed.

Lemma next_rowid_above (s : store) : sqlite_sequence s < next_rowid s.
Proof. unfold next_rowid. lia. Qed.

Lemma find_has_id_app (rs : list row) (r : row) :
  ~ In (id r) (map id rs) -> find (has_id (id r)) (rs ++ [r]) = Some r.
Proof.
  induction rs as [|x rs IH]; simpl; intros H.
  - unfold has_id. now rewrite Z.eqb_refl.
  - unfold has_id at 1. destruct (Z.eqb_spec (id x) (id r)) as [E|E].
    + exfalso. apply H. now left.
    + apply IH. intros HI. apply H. now right.
Qed.

Lemma existsb_has_id (rs : list row) (i : Z) :
  existsb (has_id i) rs = true <-> In i (map id rs).
Proof.
  rewrite existsb_exists, in_map_iff. unfold has_id.
  split; intros (r & H1 & H2); exists r.
  - apply Z.eqb_eq in H2. tauto.
  - split; [tauto | now apply Z.eqb_eq].
Qed.

Lemma existsb_has_id_false (rs : list row) (i : Z) :
  ~ In i (map id rs) -> existsb (has_id i) rs = false.
Proof.
  intros H. destruct (existsb (has_id i) rs) eqn:E; [|reflexivity].
  apply existsb_has_id in E. contradiction.
Qed.

Lemma find_has_id_none (rs : list row) (i : Z) :
  ~ In i (map id rs) -> find (has_id i) rs = None.
Proof.
  intros H. destruct (find (has_id i) rs) as [r|] eqn:E; [|reflexivity].
  apply find_some in E as [Hin Hid]. exfalso. apply H.
  apply in_map_iff. exists r. unfold has_id in Hid.
  apply Z.eqb_eq in Hid. tauto.
Qed.

Lemma find_replaced (rs : list row) (i : Z) (r' : row) :
  id r' = i -> In i (map id rs) ->
  find (has_id i) (map (fun r => if has_id i r then r' else r) rs) = Some r'.
Proof.
  intros Hr'. induction rs as [|x rs IH]; simpl; [tauto|].
  intros H. destruct (has_id i x) eqn:E.
  - unfold has_id at 1. rewrite Hr', Z.eqb_refl. reflexivity.
  - rewrite E. apply IH. destruct H as [H|H]; [|exact H].
    unfold has_id in E. apply Z.eqb_neq in E. congruence.
Qed.

Lemma filter_none_has_id (rs : list row) (i : Z) :
  ~ In i (map id rs) -> filter (fun r => negb (has_id i r)) rs = rs.
Proof.
  induction rs as [|x rs IH]; simpl; [reflexivity|].
  intros H. unfold has_id at 1.
  destruct (Z.eqb_spec (id x) i) as [E|E]; simpl.
  - exfalso. apply H. now left.
  - f_equal. apply IH. tauto.
Qed.

End Table.

Section Handlers.

Lemma app_post_rejected (s : store) (b : Body.t) :
  truthy (text (Body.title b)) && truthy (text (Body.deadline b))
    && truthy (text (Body.person b)) = false ->
  app_post s b =
  (s, mkResponse 400 (ErrorMessage "Title, deadline and person are required")).
Proof.
  intros H. unfold app_post.
  destruct (truthy (text (Body.title b))), (truthy (text (Body.deadline b))),
    (truthy (text (Body.person b))); simpl in *; try reflexivity; discriminate.
Qed.

Lemma app_post_accepted (s : store) (b : Body.t) (t d p : string) :
  Body.title b = Some t -> t <> "" ->
  Body.deadline b = Some d -> d <> "" ->
  Body.person b = Some p -> p <> "" ->
  app_post s b =
  (mkStore (projects s ++ [created (next_rowid s) t d p b]) (next_rowid s),
   mkResponse 201 (Row (created (next_rowid s) t d p b))).
Proof.
  intros Ht Hte Hd Hde Hp Hpe. unfold app_post.
  assert (T : truthy (text (Body.title b)) = true)
    by (apply truthy_text; eauto).
  assert (D : truthy (text (Body.deadline b)) = true)
    by (apply truthy_text; eauto).
  assert (P : truthy (text (Body.person b)) = true)
    by (apply truthy_text; eauto).
  rewrite T, D, P. simpl.
  unfold INSERT, written. simpl. rewrite Ht, Hd, Hp. simpl.
  unfold SELECT_by_id. simpl. fold (created (next_rowid s) t d p b).
  pose proof (find_has_id_app (projects s) (created (next_rowid s) t d p b)
                (next_rowid_fresh s)) as F.
  simpl in F. rewrite F. reflexivity.
Qed.

Lemma app_post_cases (s : store) (b : Body.t) :
  app_post s b =
    (s, mkResponse 400 (ErrorMessage "Title, deadline and person are required"))
  \/ exists t d p,
       app_post s b =
       (mkStore (projects s ++ [created (next_rowid s) t d p b]) (next_rowid s),
        mkResponse 201 (Row (created (next_rowid s) t d p b))).
Proof.
  destruct (truthy (text (Body.title b)) && truthy (text (Body.deadline b))
            && truthy (text (Body.person b))) eqn:E.
  - right. apply andb_true_iff in E as [E P]. apply andb_true_iff in E as [T D].
    apply truthy_text in T as (t & Ht & Hte).
    apply truthy_text in D as (d & Hd & Hde).
    apply truthy_text in P as (p & Hp & Hpe).
    exists t, d, p. now apply app_post_accepted.
  - left. now apply app_post_rejected.
Qed.

Lemma app_put_missing (s : store) (i : Z) (b : Body.t) :
  ~ In i (ids s) -> app_put s i b = (s, mkResponse 200 Undefined).
Proof.
  intros H. unfold app_put, UPDATE.
  rewrite (existsb_has_id_false _ _ H).
  unfold SELECT_by_id. rewrite (find_has_id_none _ _ H). reflexivity.
Qed.

Lemma app_put_present (s : store) (i : Z) (b : Body.t) (t d p : string) :
  In i (ids s) ->
  Body.title b = Some t -> Body.deadline b = Some d -> Body.person b = Some p ->
  app_put s i b =
  (mkStore (map (fun r => if has_id i r then replaced i t d p b else r)
                (projects s))
           (sqlite_sequence s),
   mkResponse 200 (Row (replaced i t d p b))).
Proof.
  intros Hi Ht Hd Hp. unfold app_put, UPDATE.
  apply existsb_has_id in Hi as E. rewrite E.
  unfold written. simpl. rewrite Ht, Hd, Hp.
  unfold SELECT_by_id. simpl.
  fold (replaced i t d p b).
  rewrite find_replaced by (auto).
  reflexivity.
Qed.

Lemma app_put_cases (s : store) (i : Z) (b : Body.t) :
  fst (app_put s i b) = s
  \/ exists t d p,
       fst (app_put s i b) =
       mkStore (map (fun r => if has_id i r then replaced i t d p b else r)
                    (projects s))
               (sqlite_sequence s).
Proof.
  unfold app_put, UPDATE.
  destruct (existsb (has_id i) (projects s)); [|now left].
  unfold written. simpl.
  destruct (Body.title b) as [t|]; [|now left].
  destruct (Body.deadline b) as [d|]; [|now left].
  destruct (Body.person b) as [p|]; [|now left].
  right. exists t, d, p. reflexivity.
Qed.

End Handlers.

Section Histories.

Lemma serve_app (s : store) (h1 h2 : list request) :
  serve s (h1 ++ h2) = serve (serve s h1) h2.
Proof. unfold serve. apply fold_left_app. Qed.

Lemma handle_sequence_grows (s : store) (r : request) :
  sqlite_sequence s <= sqlite_sequence (fst (handle s r)).
Proof.
  destruct r as [|b|i b|i]; simpl; try lia.
  - destruct (app_post_cases s b) as [-> | (t & d & p & ->)]; simpl;
      [lia | pose proof (next_rowid_above s); lia].
  - destruct (app_put_cases s i b) as [-> | (t & d & p & ->)]; simpl; lia.
Qed.

Lemma serve_sequence_grows (h : list request) (s : store) :
  sqlite_sequence s <= sqlite_sequence (serve s h).
Proof.
  revert s. induction h as [|r h IH]; intros s; simpl; [lia|].
  specialize (IH (fst (handle s r))).
  pose proof (handle_sequence_grows s r). unfold serve in *. lia.
Qed.

Lemma handle_bounded (s : store) (r : request) :
  bounded s -> bounded (fst (handle s r)).
Proof.
  unfold bounded. intros B. destruct r as [|b|i b|i]; simpl; auto.
  - destruct (app_post_cases s b) as [-> | (t & d & p & ->)]; simpl; auto.
    apply Forall_app. split.
    + eapply Forall_impl; [|exact B]. simpl. intros r Hr.
      pose proof (next_rowid_above s). lia.
    + constructor; [simpl; lia | constructor].
  - destruct (app_put_cases s i b) as [-> | (t & d & p & ->)]; simpl; auto.
    apply Forall_forall. intros r Hr.
    apply in_map_iff in Hr as (x & <- & Hx).
    rewrite Forall_forall in B. specialize (B x Hx).
    destruct (has_id i x) eqn:E; [|exact B].
    unfold has_id in E. apply Z.eqb_eq in E. simpl. lia.
  - apply Forall_forall. intros r Hr. apply filter_In in Hr as [Hr _].
    rewrite Forall_forall in B. auto.
Qed.

Lemma serve_bounded (h : list request) (s : store) :
  bounded s -> bounded (serve s h).
Proof.
  revert s. induction h as [|r h IH]; intros s B; simpl; [exact B|].
  apply IH. now apply handle_bounded.
Qed.

Lemma empty_bounded : bounded empty_store.
Proof. constructor. Qed.

Lemma handle_flags (s : store) (r : request) :
  Forall flag (projects s) -> Forall flag (projects (fst (handle s r))).
Proof.
  intros F. destruct r as [|b|i b|i]; simpl; auto.
  - destruct (app_post_cases s b) as [-> | (t & d & p & ->)]; simpl; auto.
    apply Forall_app. split; [exact F|].
    constructor; [|constructor]. unfold flag. simpl.
    destruct (truthy (Body.finished b)); auto.
  - destruct (app_put_cases s i b) as [-> | (t & d & p & ->)]; simpl; auto.
    apply Forall_forall. intros r Hr.
    apply in_map_iff in Hr as (x & <- & Hx).
    rewrite Forall_forall in F. specialize (F x Hx).
    destruct (has_id i x); [|exact F]. unfold flag. simpl.
    destruct (truthy (Body.finished b)); auto.
  - apply Forall_forall. intros r Hr. apply filter_In in Hr as [Hr _].
    rewrite Forall_forall in F. auto.
Qed.

Lemma serve_flags (h : list request) (s : store) :
  Forall flag (projects s) -> Forall flag (projects (serve s h)).
Proof.
  revert s. induction h as [|r h IH]; intros s F; simpl; [exact F|].
  apply IH. now apply handle_flags.
Qed.

End Histories.

(** ** The claims about the API *)

(** C1. A Create request whose title, deadline or person is absent or
    empty is answered with status 400 and an error message; nothing is
    persisted, so List returns exactly what it returned before. *)
Theorem create_missing_field_rejected (s : store) (b : Body.t) :
  absent_or_empty (Body.title b) \/ absent_or_empty (Body.deadline b)
    \/ absent_or_empty (Body.person b) ->
  (exists msg, snd (app_post s b) = mkResponse 400 (ErrorMessage msg))
  /\ is_error (snd (app_post s b)) = true
  /\ fst (app_post s b) = s
  /\ snd (app_get (fst (app_post s b))) = snd (app_get s).
Proof.
  intros H.
  assert (E : truthy (text (Body.title b)) && truthy (text (Body.deadline b))
              && truthy (text (Body.person b)) = false).
  { unfold absent_or_empty in H.
    destruct H as [[H|H] | [[H|H] | [H|H]]]; rewrite H; simpl;
      rewrite ?andb_false_r; reflexivity. }
  rewrite (app_post_rejected s b E). simpl.
  repeat split. eexists. reflexivity.
Qed.

Lemma create_missing_field_rejected_witness :
  absent_or_empty (Body.title untitled)
  /\ snd (app_post one_project untitled)
     = mkResponse 400 (ErrorMessage "Title, deadline and person are required")
  /\ snd (app_get (fst (app_post one_project untitled)))
     = snd (app_get one_project).
Proof.
  assert (H : absent_or_empty (Body.title untitled)) by (right; reflexivity).
  destruct (create_missing_field_rejected one_project untitled (or_introl H))
    as (_ & _ & _ & L).
  split; [exact H|]. split; [reflexivity | exact L].
Defined.

(** C2. A Create request with non-empty title, deadline and person
    persists exactly one new row, under a rowid the store assigns and has
    never used, and answers 201 with that row: description, client and
    contact are the empty string when omitted, achievements and price are
    0 when omitted, and finished is 1 for a truthy input and 0 otherwise. *)
Theorem create_persists_one_row (s : store) (b : Body.t) (t d p : string) :
  Body.title b = Some t -> t <> "" ->
  Body.deadline b = Some d -> d <> "" ->
  Body.person b = Some p -> p <> "" ->
  exists r,
    app_post s b = (mkStore (projects s ++ [r]) (id r), mkResponse 201 (Row r))
    /\ SELECT_by_id (fst (app_post s b)) (id r) = Some r
    /\ id r = next_rowid s
    /\ ~ In (id r) (ids s)
    /\ sqlite_sequence s < id r
    /\ (forall h1 h2, s = serve (serve empty_store h1) h2 ->
        ~ In (id r) (ids (serve empty_store h1)))
    /\ title r = t /\ deadline r = d /\ person r = p
    /\ description r
       = Some (match Body.description b with Some x => x | None => "" end)
    /\ client r = Some (match Body.client b with Some x => x | None => "" end)
    /\ contact r = Some (match Body.contact b with Some x => x | None => "" end)
    /\ (exists a, achievements r = Some a
          /\ match Body.achievements b with
             | Some x => (a == x)%Q
             | None => a = 0%Q
             end)
    /\ (exists c, price r = Some c
          /\ match Body.price b with
             | Some x => (c == x)%Q
             | None => c = 0%Q
             end)
    /\ finished r = (if truthy (Body.finished b) then 1 else 0).
Proof.
  intros Ht Hte Hd Hde Hp Hpe.
  exists (created (next_rowid s) t d p b).
  rewrite (app_post_accepted s b t d p Ht Hte Hd Hde Hp Hpe). simpl.
  split; [reflexivity|]. split.
  { unfold SELECT_by_id. simpl.
    exact (find_has_id_app (projects s) (created (next_rowid s) t d p b)
             (next_rowid_fresh s)). }
  split; [reflexivity|].
  split; [apply next_rowid_fresh|].
  split; [apply next_rowid_above|].
  split.
  { intros h1 h2 Hs Hin. unfold ids in Hin.
    apply in_map_iff in Hin as (x & Hx & Hin).
    pose proof (serve_bounded h1 empty_store empty_bounded) as B.
    unfold bounded in B. rewrite Forall_forall in B. specialize (B x Hin).
    pose proof (serve_sequence_grows h2 (serve empty_store h1)) as G.
    rewrite <- Hs in G. pose proof (next_rowid_above s). lia. }
  rewrite !or_empty_default.
  repeat (split; [reflexivity|]).
  split; [|split].
  - eexists. split; [reflexivity|]. apply or_zero_default.
  - eexists. split; [reflexivity|]. apply or_zero_default.
  - reflexivity.
Qed.

Lemma create_persists_one_row_witness :
  exists r,
    app_post empty_store website
    = (mkStore (projects empty_store ++ [r]) (id r), mkResponse 201 (Row r))
    /\ r = mkRow 1 "Website" (Some "") "2024-12-01" "Alice" (Some "") (Some "")
                 (Some 0%Q) (Some 0%Q) 0.
Proof.
  destruct (create_persists_one_row empty_store website
              "Website" "2024-12-01" "Alice")
    as (r & H & _); try reflexivity; try discriminate.
  exists r. split; [exact H|].
  vm_compute in H. now inversion H.
Defined.

Lemma created_id_present (s : store) (b : Body.t) (r : row) :
  snd (app_post s b) = mkResponse 201 (Row r) ->
  In (id r) (ids (fst (app_post s b))).
Proof.
  destruct (app_post_cases s b) as [-> | (t & d & p & ->)]; simpl.
  - discriminate.
  - intros [= <-]. unfold ids. simpl. rewrite map_app, in_app_iff.
    right. now left.
Qed.

(** C3, as the code has it.  For an id present in the table (one that
    Create assigned) and a replacement record that supplies title,
    deadline and person, as any text, the empty string included, Update
    answers with the record made of exactly the supplied values, finished
    coerced to 0 or 1; List then shows that record at the id, every row
    with that id is that record, and the other rows are as they were. *)
Theorem update_returns_replacement (s : store) (i : Z) (b : Body.t)
  (t d p : string) :
  In i (ids s) ->
  Body.title b = Some t -> Body.deadline b = Some d -> Body.person b = Some p ->
  let r' := mkRow i t (Body.description b) d p (Body.client b) (Body.contact b)
                  (Body.achievements b) (Body.price b)
                  (if truthy (Body.finished b) then 1 else 0) in
  let s' := fst (app_put s i b) in
  snd (app_put s i b) = mkResponse 200 (Row r')
  /\ In r' (SELECT_all s')
  /\ (forall r, In r (SELECT_all s') -> id r = i -> r = r')
  /\ (forall r, In r (SELECT_all s) -> r <> r' -> id r = i ->
      ~ In r (SELECT_all s'))
  /\ (forall r, id r <> i -> (In r (SELECT_all s') <-> In r (SELECT_all s)))
  /\ ids s' = ids s.
Proof.
  intros Hi Ht Hd Hp r' s'. subst s'.
  rewrite (app_put_present s i b t d p Hi Ht Hd Hp). simpl.
  fold (replaced i t d p b). change (replaced i t d p b) with r'.
  unfold SELECT_all. simpl.
  assert (U : forall r,
             In r (map (fun r => if has_id i r then r' else r) (projects s)) ->
             id r = i -> r = r').
  { intros r Hr Hid. apply in_map_iff in Hr as (x & Hx & _).
    destruct (has_id i x) eqn:E; [congruence|]. subst x.
    unfold has_id in E. apply Z.eqb_neq in E. contradiction. }
  split; [reflexivity|]. split; [|split; [exact U|split; [|split]]].
  - unfold ids in Hi. apply in_map_iff in Hi as (x & Hx & Hin).
    apply in_map_iff. exists x. split; [|exact Hin].
    unfold has_id. rewrite Hx, Z.eqb_refl. reflexivity.
  - intros r _ Hne Hid Hin. apply Hne. now apply U.
  - intros r Hne. rewrite in_map_iff. split.
    + intros (x & Hx & Hin). destruct (has_id i x) eqn:E.
      * subst r. simpl in Hne. contradiction.
      * now subst x.
    + intros Hin. exists r. split; [|exact Hin].
      unfold has_id. destruct (Z.eqb_spec (id r) i); [contradiction|reflexivity].
  - unfold ids. simpl. rewrite map_map. apply map_ext_in.
    intros x _. destruct (has_id i x) eqn:E; [|reflexivity].
    unfold has_id in E. apply Z.eqb_eq in E. simpl. congruence.
Qed.

Lemma update_returns_replacement_witness :
  In 1 (ids one_project)
  /\ snd (app_put one_project 1 website_done)
     = mkResponse 200
         (Row (mkRow 1 "Website" (Some "") "2024-12-01" "Alice" (Some "")
                     (Some "") (Some 0%Q) (Some 0%Q) 1))
  /\ SELECT_all (fst (app_put one_project 1 website_done))
     = [mkRow 1 "Website" (Some "") "2024-12-01" "Alice" (Some "")
              (Some "") (Some 0%Q) (Some 0%Q) 1].
Proof.
  assert (H : In 1 (ids one_project)) by (left; reflexivity).
  destruct (update_returns_replacement one_project 1 website_done
              "Website" "2024-12-01" "Alice" H eq_refl eq_refl eq_refl)
    as (R & _).
  split; [exact H|]. split; [exact R | reflexivity].
Defined.

(** C3, as stated, fails.  Update does check the replacement record: the
    columns title, deadline and person are NOT NULL, and a record that
    leaves one of them out is refused.  For the id 1 that Create assigned
    and a record without title, Update answers 500 with an error message
    and no record, and List still shows the original row. *)
Lemma update_partial_record_refused :
  snd (app_post empty_store website)
  = mkResponse 201 (Row (created 1 "Website" "2024-12-01" "Alice" website))
  /\ In 1 (ids one_project)
  /\ app_put one_project 1 no_title
     = (one_project, mkResponse 500 (ErrorMessage "Database update error"))
  /\ (forall r, snd (app_put one_project 1 no_title) <> mkResponse 200 (Row r))
  /\ SELECT_all (fst (app_put one_project 1 no_title))
     = [created 1 "Website" "2024-12-01" "Alice" website].
Proof.
  split; [reflexivity|]. split; [left; reflexivity|].
  split; [reflexivity|]. split; [|reflexivity].
  intros r. discriminate.
Qed.

(** X6. A replacement that leaves a NOT NULL column out is refused by the
    table: the statement fails, the handler answers 500, and the row
    stays as it was. *)
Lemma update_without_required_column (s : store) (i : Z) (b : Body.t) :
  In i (ids s) ->
  Body.title b = None \/ Body.deadline b = None \/ Body.person b = None ->
  app_put s i b = (s, mkResponse 500 (ErrorMessage "Database update error")).
Proof.
  intros Hi H. unfold app_put, UPDATE.
  apply existsb_has_id in Hi. rewrite Hi. unfold written. simpl.
  destruct H as [H|[H|H]]; rewrite H;
    destruct (Body.title b), (Body.deadline b); reflexivity.
Qed.

(** C4, as the code has it.  An Update whose id matches no row leaves the
    store unchanged and reports no error: the statement updates nothing,
    the row fetched afterwards is undefined, and the handler answers with
    status 200 and no body. *)
Theorem update_unknown_id_is_silent (s : store) (i : Z) (b : Body.t) :
  ~ In i (ids s) ->
  app_put s i b = (s, mkResponse 200 Undefined)
  /\ is_error (snd (app_put s i b)) = false
  /\ received (snd (app_put s i b)) = Response 200 None.
Proof.
  intros H. rewrite (app_put_missing s i b H). repeat split.
Qed.

Lemma update_unknown_id_is_silent_witness :
  ~ In 7 (ids one_project)
  /\ app_put one_project 7 website_done = (one_project, mkResponse 200 Undefined).
Proof.
  assert (H : ~ In 7 (ids one_project)).
  { simpl. intros [H|[]]. discriminate. }
  split; [exact H|].
  exact (proj1 (update_unknown_id_is_silent one_project 7 website_done H)).
Defined.

(** C4, as stated, fails: an Update at an id that matches no row is not
    answered with an error. *)
Lemma update_unknown_id_not_an_error :
  SELECT_by_id one_project 7 = None
  /\ ~ (is_error (snd (app_put one_project 7 website_done)) = true
        /\ fst (app_put one_project 7 website_done) = one_project).
Proof.
  split; [reflexivity|]. intros [H _]. vm_compute in H. discriminate.
Qed.

(** C5. Delete answers [{ success: true }] whether or not a row matched.
    Afterwards no row has the id; every other row is listed exactly as
    before, in the same order; and when no row matched, List is unchanged. *)
Theorem delete_removes_matching_row (s : store) (i : Z) :
  let s' := fst (app_delete s i) in
  snd (app_delete s i) = mkResponse 200 SuccessTrue
  /\ ~ In i (ids s')
  /\ (forall r, In r (SELECT_all s') <-> In r (SELECT_all s) /\ id r <> i)
  /\ SELECT_all s' = filter (fun r => negb (id r =? i)) (SELECT_all s)
  /\ (~ In i (ids s) -> SELECT_all s' = SELECT_all s)
  /\ (~ In i (ids s) -> s' = s).
Proof.
  simpl. unfold SELECT_all, DELETE, ids. simpl.
  assert (M : forall r, In r (filter (fun r => negb (has_id i r)) (projects s))
                        <-> In r (projects s) /\ id r <> i).
  { intros r. rewrite filter_In. unfold has_id.
    destruct (Z.eqb_spec (id r) i); simpl; intuition congruence. }
  split; [reflexivity|]. split; [|split; [exact M|split; [reflexivity|split]]].
  - intros H. apply in_map_iff in H as (r & Hid & Hin).
    apply M in Hin. tauto.
  - intros H. now apply filter_none_has_id.
  - intros H. rewrite (filter_none_has_id _ _ H). now destruct s.
Qed.

Lemma delete_removes_matching_row_witness :
  ~ In 7 (ids one_project)
  /\ fst (app_delete one_project 7) = one_project
  /\ SELECT_all (fst (app_delete one_project 1)) = [].
Proof.
  assert (H : ~ In 7 (ids one_project)).
  { simpl. intros [H|[]]. discriminate. }
  destruct (delete_removes_matching_row one_project 7)
    as (_ & _ & _ & _ & _ & U).
  destruct (delete_removes_matching_row one_project 1)
    as (_ & _ & _ & F & _).
  split; [exact H|]. split; [exact (U H)|]. rewrite F. reflexivity.
Defined.

(** C6. Delete is idempotent: a second Delete of the same id leaves the
    store, and so the List result, as the first one left it, and gets the
    same answer. *)
Theorem delete_idempotent (s : store) (i : Z) :
  let s1 := fst (app_delete s i) in
  let s2 := fst (app_delete s1 i) in
  s2 = s1
  /\ snd (app_get s2) = snd (app_get s1)
  /\ snd (app_delete s1 i) = snd (app_delete s i).
Proof.
  cbv zeta. unfold app_delete, app_get, SELECT_all. cbn [fst snd].
  assert (E : DELETE (DELETE s i) i = DELETE s i).
  { unfold DELETE. simpl. f_equal.
    induction (projects s) as [|x rs IH]; simpl; [reflexivity|].
    destruct (has_id i x) eqn:H; simpl; [exact IH|].
    rewrite H. simpl. now f_equal. }
  rewrite E. split; [|split]; reflexivity.
Qed.

(** For requests whose body has the types of the columns, every row the
    API writes has finished equal to 0 or 1: the row Create appends and
    the rows Update overwrites carry 1 for a truthy input and 0 for any
    other; so every row of every table built by such requests has it. *)
Theorem finished_always_flag :
  (forall s b r, In r (projects (fst (app_post s b))) ->
     In r (projects s)
     \/ finished r = (if truthy (Body.finished b) then 1 else 0))
  /\ (forall s i b r, In r (projects (fst (app_put s i b))) ->
     In r (projects s)
     \/ finished r = (if truthy (Body.finished b) then 1 else 0))
  /\ (forall s req, Forall flag (projects s) ->
     Forall flag (projects (fst (handle s req))))
  /\ (forall h r, In r (projects (serve empty_store h)) ->
     finished r = 0 \/ finished r = 1).
Proof.
  split; [|split; [|split]].
  - intros s b r. destruct (app_post_cases s b) as [-> | (t & d & p & ->)];
      simpl; [tauto|].
    rewrite in_app_iff. simpl. intros [H|[<-|[]]]; [now left | now right].
  - intros s i b r. destruct (app_put_cases s i b) as [-> | (t & d & p & ->)];
      simpl; [tauto|].
    rewrite in_map_iff. intros (x & <- & Hx).
    destruct (has_id i x); [now right | now left].
  - exact handle_flags.
  - intros h r Hr.
    pose proof (serve_flags h empty_store (Forall_nil _)) as F.
    rewrite Forall_forall in F. exact (F r Hr).
Qed.

Lemma finished_always_flag_witness :
  In (mkRow 1 "Website" (Some "") "2024-12-01" "Alice" (Some "") (Some "")
            (Some 0%Q) (Some 0%Q) 1)
     (projects (serve empty_store [Create website; Update 1 website_done]))
  /\ (1 = 0 \/ 1 = 1).
Proof.
  assert (H : In (mkRow 1 "Website" (Some "") "2024-12-01" "Alice" (Some "")
                        (Some "") (Some 0%Q) (Some 0%Q) 1)
                 (projects (serve empty_store
                                  [Create website; Update 1 website_done])))
    by (left; reflexivity).
  destruct finished_always_flag as (_ & _ & _ & F).
  split; [exact H|]. exact (F _ _ H).
Defined.

Section Any_body.

Lemma text_field_truthy (v : jsval) (o : option string) :
  text_field v = Some o -> truthy v = truthy (text o).
Proof. destruct v; simpl; intros [= <-]; reflexivity. Qed.

Lemma text_field_required (v : jsval) (o : option string) :
  text_field v = Some o -> truthy v = true -> exists t, v = JStr t.
Proof. destruct v; simpl; try discriminate; eauto. Qed.

Lemma text_field_or_empty (v : jsval) (o : option string) :
  text_field v = Some o ->
  text_field (js_or v (JStr "")) = Some (Some (or_empty o)).
Proof.
  destruct v; simpl; intros [= <-]; try reflexivity.
  unfold js_or, or_empty. destruct (truthy (JStr s)); reflexivity.
Qed.

Lemma number_field_or_zero (v : jsval) (o : option Q) :
  number_field v = Some o ->
  number_field (js_or v (JNum 0)) = Some (Some (or_zero o)).
Proof.
  destruct v; simpl; intros [= <-]; try reflexivity.
  unfold js_or, or_zero. destruct (truthy (JNum q)); reflexivity.
Qed.

(** On a body whose fields have the types of their columns, [app.post]
    on any JSON body is [app_post]. *)
Lemma app_post_json_typed (s : store) (body : jsval) (b : Body.t) :
  destructure body = Some b -> app_post_json s body = Some (app_post s b).
Proof.
  intros D.
  assert (D' :
    and_then (text_field (field body "title")) (fun title =>
    and_then (text_field (field body "description")) (fun description =>
    and_then (text_field (field body "deadline")) (fun deadline =>
    and_then (text_field (field body "person")) (fun person =>
    and_then (text_field (field body "client")) (fun client =>
    and_then (text_field (field body "contact")) (fun contact =>
    and_then (number_field (field body "achievements")) (fun achievements =>
    and_then (number_field (field body "price")) (fun price =>
    Some (Body.make title description deadline person client contact
                    achievements price (field body "finished"))))))))))
    = Some b).
  { destruct body; try discriminate; exact D. }
  clear D. unfold app_post_json, app_post.
  destruct (text_field (field body "title")) as [t|] eqn:Et; [|discriminate].
  destruct (text_field (field body "description")) as [ds|] eqn:Eds;
    [|discriminate].
  destruct (text_field (field body "deadline")) as [d|] eqn:Ed; [|discriminate].
  destruct (text_field (field body "person")) as [p|] eqn:Ep; [|discriminate].
  destruct (text_field (field body "client")) as [c|] eqn:Ec; [|discriminate].
  destruct (text_field (field body "contact")) as [k|] eqn:Ek; [|discriminate].
  destruct (number_field (field body "achievements")) as [a|] eqn:Ea;
    [|discriminate].
  destruct (number_field (field body "price")) as [pr|] eqn:Epr;
    [|discriminate].
  simpl in D'. injection D' as <-. cbn [Body.title Body.description
    Body.deadline Body.person Body.client Body.contact Body.achievements
    Body.price Body.finished].
  rewrite (text_field_truthy _ _ Et), (text_field_truthy _ _ Ed),
    (text_field_truthy _ _ Ep).
  destruct (negb (truthy (text t)) || negb (truthy (text d))
            || negb (truthy (text p))) eqn:C; [reflexivity|].
  apply orb_false_iff in C as [C _]. apply orb_false_iff in C as [C _].
  apply negb_false_iff in C. rewrite <- (text_field_truthy _ _ Et) in C.
  destruct (text_field_required _ _ Et C) as (t' & T).
  rewrite T. unfold run_parameters, and_then at 1. rewrite <- T.
  unfold columns.
  change (9 <? List.length _)%nat with false. cbv iota.
  cbn [nth]. rewrite Et, (text_field_or_empty _ _ Eds), Ed, Ep,
    (text_field_or_empty _ _ Ec), (text_field_or_empty _ _ Ek),
    (number_field_or_zero _ _ Ea), (number_field_or_zero _ _ Epr).
  cbn [and_then].
  assert (I : integer_field
                (JNum (if truthy (field body "finished") then 1 else 0))
              = Some (if truthy (field body "finished") then 1 else 0)).
  { destruct (truthy (field body "finished")); reflexivity. }
  rewrite I. reflexivity.
Qed.

End Any_body.

(** C9, at the failing input.  [stmt.run] takes a first argument that is
    an array for the whole list of parameters, and the handler of Create
    passes [title] first.  A Create request whose title is an array of
    nine values passes the check of the three fields, and the row it
    stores carries the ninth value of the array, here 5, in finished: the
    value [finished ? 1 : 0] is not bound.  The request is answered 201
    with that row, and List shows it. *)
Theorem array_title_sets_finished (s : store) :
  exists r,
    app_post_json s array_title
    = Some (mkStore (projects s ++ [r]) (id r), mkResponse 201 (Row r))
    /\ r = mkRow (next_rowid s) "Website" (Some "") "2024-12-01" "Alice"
                 (Some "") (Some "") (Some 0%Q) (Some 0%Q) 5
    /\ field array_title "finished" = JBool false
    /\ finished r = 5
    /\ ~ flag r
    /\ ~ Forall flag (SELECT_all (mkStore (projects s ++ [r]) (id r))).
Proof.
  eexists. split; [|split; [reflexivity|]].
  - unfold app_post_json. simpl. unfold SELECT_by_id. simpl.
    pose proof (find_has_id_app (projects s)
                  (mkRow (next_rowid s) "Website" (Some "") "2024-12-01"
                         "Alice" (Some "") (Some "") (Some 0%Q) (Some 0%Q) 5)
                  (next_rowid_fresh s)) as F.
    simpl in F. rewrite F. reflexivity.
  - split; [reflexivity|]. split; [reflexivity|].
    assert (N : ~ flag (mkRow (next_rowid s) "Website" (Some "") "2024-12-01"
                              "Alice" (Some "") (Some "") (Some 0%Q)
                              (Some 0%Q) 5)).
    { unfold flag. simpl. lia. }
    split; [exact N|].
    intros A. unfold SELECT_all in A. simpl in A.
    rewrite Forall_app in A. destruct A as [_ A]. inversion A; subst.
    contradiction.
Qed.

(** The scenario of the specification: Create answers with id 1 and the
    defaults, Update with a true flag leaves one row with finished 1, and
    Delete empties the list. *)
Example website_scenario :
  let (s1, r1) := app_post empty_store website in
  let (s2, r2) := app_put s1 1 website_done in
  let (s3, r3) := app_delete s2 1 in
  r1 = mkResponse 201
         (Row (mkRow 1 "Website" (Some "") "2024-12-01" "Alice" (Some "")
                     (Some "") (Some 0%Q) (Some 0%Q) 0))
  /\ map finished (SELECT_all s2) = [1]
  /\ r3 = mkResponse 200 SuccessTrue
  /\ SELECT_all s3 = [].
Proof. repeat split. Qed.

(** * Properties of the front end *)

Section Maps.

Context {A : Type}.

Lemma assoc_assign_same (k : string) (v : A) (m : list (string * A)) :
  assoc k (assign k v m) = Some v.
Proof.
  induction m as [|[k' v'] m IH]; simpl.
  - now rewrite String.eqb_refl.
  - destruct (String.eqb k k') eqn:E; simpl; rewrite E; [reflexivity|exact IH].
Qed.

Lemma assoc_assign_other (k k' : string) (v : A) (m : list (string * A)) :
  k' <> k -> assoc k' (assign k v m) = assoc k' m.
Proof.
  intros Hne. induction m as [|[k0 v0] m IH]; simpl.
  - apply String.eqb_neq in Hne. now rewrite Hne.
  - destruct (String.eqb_spec k k0) as [->|E]; simpl.
    + apply String.eqb_neq in Hne. now rewrite Hne.
    + destruct (String.eqb k' k0); [reflexivity|exact IH].
Qed.

Lemma assoc_none (k : string) (m : list (string * A)) :
  assoc k m = None <-> ~ In k (map fst m).
Proof.
  induction m as [|[k' v'] m IH]; simpl; [tauto|].
  destruct (String.eqb_spec k k') as [->|E].
  - split; [discriminate | intros H; exfalso; apply H; now left].
  - rewrite IH. intuition congruence.
Qed.

Lemma assoc_some_in (k : string) (v : A) (m : list (string * A)) :
  assoc k m = Some v -> In k (map fst m).
Proof.
  intros H. destruct (in_dec string_dec k (map fst m)) as [I|I]; [exact I|].
  apply assoc_none in I. congruence.
Qed.

Lemma keys_assign (k : string) (v : A) (m : list (string * A)) :
  map fst (assign k v m)
  = if in_dec string_dec k (map fst m) then map fst m else map fst m ++ [k].
Proof.
  induction m as [|[k' v'] m IH]; simpl; [reflexivity|].
  destruct (String.eqb_spec k k') as [->|E]; simpl.
  - destruct (string_dec k' k'); [reflexivity|congruence].
  - rewrite IH. destruct (string_dec k' k); [congruence|].
    destruct (in_dec string_dec k (map fst m)); reflexivity.
Qed.

Lemma keys_assign_nodup (k : string) (v : A) (m : list (string * A)) :
  NoDup (map fst m) -> NoDup (map fst (assign k v m)).
Proof.
  intros H. rewrite keys_assign.
  destruct (in_dec string_dec k (map fst m)) as [I|I]; [exact H|].
  apply NoDup_app; [exact H | repeat constructor; simpl; tauto |].
  intros a Ha [<-|[]]. contradiction.
Qed.

End Maps.

Section Trimming.





End Trimming.

Section Visiting.

Lemma client_key_row (r : row) : client_key (row_json r) = Some (client_name r).
Proof.
  unfold client_key, client_name, row_json. simpl.
  destruct (client r) as [c|]; simpl; [|reflexivity].
  unfold js_or. simpl. destruct (String.eqb c ""); reflexivity.
Qed.

Lemma contact_row (r : row) :
  member (row_json r) "contact" = Some (opt_text (contact r)).
Proof. reflexivity. Qed.

Lemma contact_or_empty (r : row) :
  js_or (opt_text (contact r)) (JStr "") = JStr (or_empty (contact r)).
Proof.
  destruct (contact r) as [c|]; simpl; [|reflexivity].
  unfold js_or. simpl. destruct (String.eqb c ""); reflexivity.
Qed.

(** [visit] reads a row only through its trimmed client and its contact. *)
Lemma visit_row (m : list (string * Info.t)) (r : row) :
  visit m (row_json r) =
  if truthy (JStr (client_name r)) then
    match clientMap_get m (client_name r) with
    | Missing =>
        Some (assign (client_name r)
                (Info.make (JStr (or_empty (contact r))) 1) m)
    | Own i =>
        Some (assign (client_name r)
                (if negb (truthy (Info.contact i))
                    && truthy (opt_text (contact r))
                 then Info.make (opt_text (contact r)) (Info.count i + 1)
                 else Info.make (Info.contact i) (Info.count i + 1)) m)
    | Inherited => Some m
    end
  else Some m.
Proof.
  unfold visit. rewrite client_key_row, contact_row, contact_or_empty.
  reflexivity.
Qed.

Lemma forEach_app {M : Type} (f : M -> jsval -> option M)
  (ps qs : list jsval) (m : M) :
  forEach f (ps ++ qs) m =
  match forEach f ps m with
  | Some m' => forEach f qs m'
  | None => None
  end.
Proof.
  revert m. induction ps as [|p ps IH]; intros m; simpl; [reflexivity|].
  destruct (f m p); [apply IH | reflexivity].
Qed.

Lemma projects_of_snoc (k : string) (rs : list row) (r : row) :
  projects_of k (rs ++ [r])
  = projects_of k rs ++ (if String.eqb (client_name r) k then [r] else []).
Proof. unfold projects_of. rewrite filter_app. reflexivity. Qed.

Lemma projects_of_other (k : string) (rs : list row) (r : row) :
  client_name r <> k -> projects_of k (rs ++ [r]) = projects_of k rs.
Proof.
  intros H. rewrite projects_of_snoc.
  apply String.eqb_neq in H. rewrite H. apply app_nil_r.
Qed.

Lemma projects_of_same (rs : list row) (r : row) :
  projects_of (client_name r) (rs ++ [r])
  = projects_of (client_name r) rs ++ [r].
Proof. rewrite projects_of_snoc. now rewrite String.eqb_refl. Qed.

Lemma truthy_contact (r : row) :
  truthy (opt_text (contact r)) = negb (String.eqb (or_empty (contact r)) "").
Proof.
  destruct (contact r) as [c|]; simpl; [|reflexivity].
  destruct (String.eqb c "") eqn:E; simpl; [reflexivity | now rewrite E].
Qed.

Lemma first_contact_snoc (rs : list row) (r : row) :
  first_contact (rs ++ [r])
  = if String.eqb (first_contact rs) ""
    then or_empty (contact r)
    else first_contact rs.
Proof.
  unfold first_contact. induction rs as [|x rs IH]; simpl.
  - rewrite truthy_contact.
    destruct (String.eqb (or_empty (contact r)) "") eqn:E; simpl;
      [|reflexivity].
    apply String.eqb_eq in E. now rewrite E.
  - destruct (truthy (opt_text (contact x))) eqn:T; [|exact IH].
    rewrite truthy_contact in T. apply negb_true_iff in T. now rewrite T.
Qed.

Lemma or_empty_opt_text (r : row) :
  truthy (opt_text (contact r)) = true ->
  opt_text (contact r) = JStr (or_empty (contact r)).
Proof.
  destruct (contact r) as [c|]; simpl; [|discriminate].
  destruct (String.eqb c ""); simpl; [discriminate | reflexivity].
Qed.

Lemma tallies_nil : tallies [] [].
Proof. split; [constructor | intros k; simpl; auto]. Qed.

Lemma tallies_step (rs : list row) (m : list (string * Info.t)) (r : row) :
  tallies rs m ->
  exists m', visit m (row_json r) = Some m' /\ tallies (rs ++ [r]) m'.
Proof.
  intros [ND T]. rewrite visit_row.
  remember (client_name r) as key eqn:Hkey.
  assert (Other : forall k, key <> k ->
            projects_of k (rs ++ [r]) = projects_of k rs)
    by (intros; subst key; now apply projects_of_other).
  assert (Same : projects_of key (rs ++ [r]) = projects_of key rs ++ [r])
    by (subst key; apply projects_of_same).
  destruct (truthy (JStr key)) eqn:K.
  2:{ (* no client *)
    exists m. split; [reflexivity|]. split; [exact ND|].
    simpl in K. apply negb_false_iff, String.eqb_eq in K.
    intros k. specialize (T k). destruct (String.eqb_spec key k) as [E|E].
    - destruct (assoc k m); [exfalso; intuition congruence | left; congruence].
    - rewrite (Other k E). exact T. }
  simpl in K. apply negb_true_iff, String.eqb_neq in K.
  unfold clientMap_get. destruct (assoc key m) as [i|] eqn:A.
  - (* the name has an entry *)
    pose proof (T key) as Tk. rewrite A in Tk.
    destruct Tk as (_ & NI & NE & Cnt & Con).
    eexists. split; [reflexivity|].
    split; [now apply keys_assign_nodup|].
    intros k. destruct (string_dec k key) as [->|E].
    + rewrite assoc_assign_same.
      rewrite Same.
      rewrite first_contact_snoc, length_app, Nat2Z.inj_add. simpl.
      split; [exact K|]. split; [exact NI|].
      split; [now destruct (projects_of key rs)|].
      rewrite Con. simpl. rewrite truthy_contact.
      destruct (String.eqb (first_contact (projects_of key rs)) "") eqn:F;
        simpl.
      * destruct (String.eqb (or_empty (contact r)) "") eqn:O; simpl.
        -- split; [lia|]. apply String.eqb_eq in F, O. congruence.
        -- split; [lia|]. apply or_empty_opt_text.
           rewrite truthy_contact, O. reflexivity.
      * split; [lia | reflexivity].
    + rewrite assoc_assign_other by exact E.
      rewrite (Other k) by congruence. apply T.
  - destruct (inherited key) eqn:I.
    + (* the name resolves to a built-in value *)
      exists m. split; [reflexivity|]. split; [exact ND|].
      intros k. specialize (T k). destruct (String.eqb_spec key k) as [E|E].
      * subst k. rewrite A. now right; left.
      * rewrite (Other k E). exact T.
    + (* a new name *)
      pose proof (T key) as Tk. rewrite A in Tk.
      assert (Z0 : projects_of key rs = [])
        by (destruct Tk as [?|[?|?]]; congruence).
      eexists. split; [reflexivity|].
      split; [now apply keys_assign_nodup|].
      intros k. destruct (string_dec k key) as [->|E].
      * rewrite assoc_assign_same.
        rewrite Same.
        rewrite Z0. simpl.
        split; [exact K|]. split; [exact I|]. split; [discriminate|].
        split; [reflexivity|].
        unfold first_contact. simpl. rewrite truthy_contact.
        destruct (String.eqb (or_empty (contact r)) "") eqn:O; simpl;
          [|reflexivity].
        apply String.eqb_eq in O. now rewrite O.
      * rewrite assoc_assign_other by exact E.
        rewrite (Other k) by congruence. apply T.
Qed.

Lemma tallies_forEach (rs done : list row) (m : list (string * Info.t)) :
  tallies done m ->
  exists m', forEach visit (map row_json rs) m = Some m'
             /\ tallies (done ++ rs) m'.
Proof.
  revert done m. induction rs as [|r rs IH]; intros done m T; simpl.
  - exists m. rewrite app_nil_r. auto.
  - destruct (tallies_step done m r T) as (m1 & -> & T1).
    destruct (IH (done ++ [r]) m1 T1) as (m' & F & T').
    exists m'. split; [exact F|]. now rewrite <- app_assoc in T'.
Qed.

End Visiting.

Section Keys.

Lemma insert_index_perm (n : N) (k : string) (l : list (N * string)) :
  Permutation (insert_index n k l) ((n, k) :: l).
Proof.
  induction l as [|[m k'] l IH]; simpl; [reflexivity|].
  destruct (n <=? m)%N; [reflexivity|].
  rewrite IH. apply perm_swap.
Qed.

Lemma index_keys_perm (names : list string) :
  Permutation (map snd (index_keys names))
              (filter (fun k => negb (is_named k)) names).
Proof.
  induction names as [|k names IH]; simpl; [reflexivity|].
  unfold is_named at 1. destruct (array_index k) as [n|]; simpl.
  - rewrite insert_index_perm. simpl. now constructor.
  - exact IH.
Qed.

Lemma partition_perm {A : Type} (f : A -> bool) (l : list A) :
  Permutation (filter (fun x => negb (f x)) l ++ filter f l) l.
Proof.
  induction l as [|x l IH]; simpl; [reflexivity|].
  destruct (f x); simpl.
  - rewrite <- Permutation_middle. now constructor.
  - now constructor.
Qed.

Lemma Object_keys_perm {A : Type} (o : list (string * A)) :
  Permutation (Object_keys o) (map fst o).
Proof.
  unfold Object_keys. rewrite index_keys_perm. apply partition_perm.
Qed.

Lemma Object_keys_in {A : Type} (o : list (string * A)) (k : string) :
  In k (Object_keys o) <-> In k (map fst o).
Proof.
  split; apply Permutation_in;
    [apply Object_keys_perm | symmetry; apply Object_keys_perm].
Qed.

End Keys.

Section View.

Lemma ClientsPage_rows (rs : list row) :
  exists m,
    tallies rs m
    /\ ClientsPage (map row_json rs)
       = Some (map (fun name =>
                      Client.make name (Info.contact (own m name))
                                       (Info.count (own m name)))
                   (Object_keys m)).
Proof.
  destruct (tallies_forEach rs [] [] tallies_nil) as (m & F & T).
  exists m. split; [exact T|]. unfold ClientsPage. now rewrite F.
Qed.

Lemma projects_of_nonempty (k : string) (rs : list row) :
  projects_of k rs <> [] <-> exists r, In r rs /\ client_name r = k.
Proof.
  unfold projects_of. split.
  - destruct (filter _ rs) as [|r l] eqn:E; [congruence|]. intros _.
    assert (H : In r (filter (fun r => String.eqb (client_name r) k) rs))
      by (rewrite E; now left).
    apply filter_In in H as [H1 H2]. apply String.eqb_eq in H2. eauto.
  - intros (r & H1 & H2) E.
    assert (H : In r (filter (fun r => String.eqb (client_name r) k) rs))
      by (apply filter_In; split; [exact H1 | now apply String.eqb_eq]).
    rewrite E in H. contradiction.
Qed.

(** Every entry of the view tallies the rows grouped under its name. *)
Lemma ClientsPage_entry (rs : list row) (view : list Client.t) (c : Client.t) :
  ClientsPage (map row_json rs) = Some view -> In c view ->
  Client.name c <> ""
  /\ inherited (Client.name c) = false
  /\ projects_of (Client.name c) rs <> []
  /\ Client.count c = Z.of_nat (List.length (projects_of (Client.name c) rs))
  /\ Client.contact c = JStr (first_contact (projects_of (Client.name c) rs)).
Proof.
  destruct (ClientsPage_rows rs) as (m & [ND T] & ->).
  intros [= <-] Hc. apply in_map_iff in Hc as (k & <- & Hk). simpl.
  apply Object_keys_in in Hk. specialize (T k). unfold own.
  destruct (assoc k m) as [i|] eqn:A.
  - tauto.
  - apply assoc_none in A. contradiction.
Qed.

(** The names of the view: no name twice, and each name that is not an
    inherited one is there exactly when some row is grouped under it. *)
Lemma ClientsPage_names (rs : list row) (view : list Client.t) :
  ClientsPage (map row_json rs) = Some view ->
  NoDup (map Client.name view)
  /\ forall k, inherited k = false ->
       (In k (map Client.name view)
        <-> k <> "" /\ exists r, In r rs /\ client_name r = k).
Proof.
  destruct (ClientsPage_rows rs) as (m & [ND T] & ->).
  intros [= <-]. rewrite map_map. simpl. rewrite map_id. split.
  - eapply Permutation_NoDup; [symmetry; apply Object_keys_perm | exact ND].
  - intros k I. rewrite Object_keys_in, <- projects_of_nonempty.
    specialize (T k). destruct (assoc k m) as [i|] eqn:A.
    + apply assoc_some_in in A. tauto.
    + apply assoc_none in A. split; [contradiction|].
      intros [H1 H2]. destruct T as [?|[?|?]]; congruence.
Qed.



End View.

(** ** The claims about the front end *)

(** C7, as the code has it.  For every list of project rows the clients
    view is built without error and lists no name twice.  Each entry counts
    the rows whose trimmed client is its name and carries the first
    non-empty contact among them in list order, or the empty string.  When
    no row's trimmed client is a name every object inherits, the names
    listed are exactly the distinct non-empty trimmed clients of the rows.
    For Acme/a@x, Acme/no contact, Beta/b@x the view is Acme with count 2
    and a@x, then Beta with count 1 and b@x. *)
Theorem clients_view_by_trimmed_client :
  (forall rs : list row,
     exists view,
       ClientsPage (map row_json rs) = Some view
       /\ NoDup (map Client.name view)
       /\ (forall c, In c view ->
             Client.count c
             = Z.of_nat (List.length (projects_of (Client.name c) rs))
             /\ Client.contact c
                = JStr (first_contact (projects_of (Client.name c) rs)))
       /\ (Forall (fun r => inherited (trim (or_empty (client r))) = false) rs ->
           forall k,
             In k (map Client.name view)
             <-> k <> "" /\ exists r, In r rs /\ trim (or_empty (client r)) = k))
  /\ ClientsPage acme_beta
     = Some [Client.make "Acme" (JStr "a@x") 2; Client.make "Beta" (JStr "b@x") 1].
Proof.
  split; [|reflexivity].
  intros rs. destruct (ClientsPage_rows rs) as (m & _ & E).
  eexists. split; [exact E|].
  destruct (ClientsPage_names rs _ E) as [ND N].
  split; [exact ND|]. split.
  - intros c Hc.
    destruct (ClientsPage_entry rs _ c E Hc) as (_ & _ & _ & H1 & H2). auto.
  - intros NI k. destruct (inherited k) eqn:I; [|now apply N]. split.
    + intros Hk. apply in_map_iff in Hk as (c & <- & Hc).
      destruct (ClientsPage_entry rs _ c E Hc) as (_ & I' & _). congruence.
    + intros (_ & r & Hr & <-). rewrite Forall_forall in NI.
      specialize (NI r Hr). congruence.
Qed.

Lemma clients_view_by_trimmed_client_witness :
  exists view,
    ClientsPage (map row_json spaced) = Some view
    /\ Forall (fun r => inherited (trim (or_empty (client r))) = false) spaced
    /\ In "Acme" (map Client.name view)
    /\ ~ In " Acme" (map Client.name view).
Proof.
  destruct (proj1 clients_view_by_trimmed_client spaced)
    as (view & E & _ & _ & N).
  assert (NI : Forall (fun r => inherited (trim (or_empty (client r))) = false)
                      spaced) by (repeat constructor).
  exists view. split; [exact E|]. split; [exact NI|]. split.
  - apply (N NI "Acme"). split; [discriminate|].
    exists (of_client 1 " Acme" ""). split; [now left | reflexivity].
  - intros H. apply (N NI " Acme") in H as (_ & r & Hr & Hk).
    simpl in Hr. destruct Hr as [<-|[<-|[<-|[]]]]; discriminate.
Defined.

(** C7, as stated, fails.  Rows are not grouped by their client value as
    it stands: a row whose client is " Acme" is listed under "Acme"; and a
    row whose client is "constructor" is not listed at all. *)
Lemma clients_view_not_by_client_value :
  (exists view,
     ClientsPage (map row_json [of_client 1 " Acme" "a@x"]) = Some view
     /\ ~ grouped_by_client_value [of_client 1 " Acme" "a@x"] view)
  /\ (exists view,
     ClientsPage (map row_json [of_client 1 "constructor" "a@x"]) = Some view
     /\ ~ grouped_by_client_value [of_client 1 "constructor" "a@x"] view).
Proof.
  split; eexists; (split; [reflexivity|]); intros (_ & N & _).
  - destruct (proj2 (N " Acme")) as [H|[]].
    + split; [discriminate|]. eexists. split; [now left | reflexivity].
    + discriminate.
  - destruct (proj2 (N "constructor")).
    split; [discriminate|]. eexists. split; [now left | reflexivity].
Qed.

(** C8, at the failing input.  [fetch] resolves for a response of any
    status, so an error response with a JSON body reaches the [then]
    callbacks: after a failed Create the error object is appended to the
    project list, and after a failed Delete the entry is removed from it. *)
Theorem error_response_changes_project_list :
  let prev := [row_json (of_client 1 "Acme" "a@x")] in
  ok (Response 500 (Some insertion_error)) = false
  /\ addProject prev (Response 500 (Some insertion_error))
     = prev ++ [insertion_error]
  /\ ok (Response 500 (Some deletion_error)) = false
  /\ deleteProject prev (JNum 1) (Response 500 (Some deletion_error)) = Some []
  /\ ok (received (snd (app_post one_project untitled))) = false
  /\ addProject prev (received (snd (app_post one_project untitled)))
     = prev ++ [validation_error].
Proof. repeat split. Qed.

(** None of the three handlers looks at the status of the response. *)
Lemma handlers_ignore_status (prev : list jsval) (i : jsval) (st st' : Z)
  (json : option jsval) :
  addProject prev (Response st json) = addProject prev (Response st' json)
  /\ deleteProject prev i (Response st json)
     = deleteProject prev i (Response st' json)
  /\ toggleFinished prev (Response st json)
     = toggleFinished prev (Response st' json).
Proof. repeat split. Qed.

(** When the call itself is rejected, by a network failure or a body that
    is not JSON, the three handlers leave the project list as it was. *)
Lemma rejected_call_keeps_project_list (prev : list jsval) (i : jsval)
  (f : fetched) :
  f = NetworkError \/ (exists st, f = Response st None) ->
  addProject prev f = prev
  /\ deleteProject prev i f = Some prev
  /\ toggleFinished prev f = Some prev.
Proof. intros [-> | (st & ->)]; repeat split. Qed.

(** X21. An error object leaves the list as it was under [toggleFinished]
    when every entry is a row: it has no id, so it replaces no entry. *)
Lemma error_object_keeps_toggled_list (rs : list row) (st : Z) (msg : string) :
  toggleFinished (map row_json rs)
                 (Response st (Some (JObj [("error", JStr msg)])))
  = Some (map row_json rs).
Proof.
  simpl. induction rs as [|r rs IH]; simpl; [reflexivity|].
  now rewrite IH.
Qed.




(** * Further properties of the server *)

Section Keys_of_the_table.

Lemma sorted_snoc (l : list Z) (x : Z) :
  StronglySorted Z.lt l -> Forall (fun y => y < x) l ->
  StronglySorted Z.lt (l ++ [x]).
Proof.
  induction 1 as [|y l S IH F]; intros B; simpl.
  - repeat constructor.
  - inversion B as [|? ? Hy B']; subst. constructor; [now apply IH|].
    apply Forall_app. split; [exact F | now constructor].
Qed.

Lemma sorted_filter (f : row -> bool) (rs : list row) :
  StronglySorted Z.lt (map id rs) ->
  StronglySorted Z.lt (map id (filter f rs)).
Proof.
  induction rs as [|x rs IH]; simpl; [constructor|].
  intros S. inversion S as [|? ? S' F]; subst.
  destruct (f x); simpl; [|now apply IH].
  constructor; [now apply IH|].
  rewrite Forall_forall in *. intros y Hy. apply F.
  apply in_map_iff in Hy as (r & <- & Hr). apply filter_In in Hr as [Hr _].
  now apply in_map.
Qed.

Lemma sorted_nodup (l : list Z) : StronglySorted Z.lt l -> NoDup l.
Proof.
  induction 1 as [|y l S IH F]; constructor; [|exact IH].
  intros H. rewrite Forall_forall in F. specialize (F y H). lia.
Qed.

Lemma max_rowid_nonneg (rs : list row) : 0 <= max_rowid rs.
Proof. induction rs as [|x rs IH]; simpl; lia. Qed.

(** The shape of a table the API has built: rowids ascend, lie between 1
    and the counter, and the counter is not negative. *)
Lemma handle_keys (s : store) (r : request) :
  StronglySorted Z.lt (ids s)
  /\ Forall (fun i => 1 <= i <= sqlite_sequence s) (ids s)
  /\ 0 <= sqlite_sequence s ->
  StronglySorted Z.lt (ids (fst (handle s r)))
  /\ Forall (fun i => 1 <= i <= sqlite_sequence (fst (handle s r)))
            (ids (fst (handle s r)))
  /\ 0 <= sqlite_sequence (fst (handle s r)).
Proof.
  intros (S & B & P). destruct r as [|b|i b|i]; simpl; auto.
  - destruct (app_post_cases s b) as [-> | (t & d & p & ->)]; simpl; auto.
    pose proof (next_rowid_above s) as A.
    unfold ids in *. simpl. rewrite map_app. simpl. split; [|split].
    + apply sorted_snoc; [exact S|].
      eapply Forall_impl; [|exact B]. simpl. intros; lia.
    + apply Forall_app. split.
      * eapply Forall_impl; [|exact B]. simpl. intros; lia.
      * repeat constructor; lia.
    + lia.
  - destruct (app_put_cases s i b) as [-> | (t & d & p & E)]; auto.
    rewrite E. unfold ids in *. simpl. rewrite map_map.
    assert (M : map (fun x => id (if has_id i x then replaced i t d p b else x))
                    (projects s) = map id (projects s)).
    { apply map_ext_in. intros x _. destruct (has_id i x) eqn:H; [|reflexivity].
      unfold has_id in H. apply Z.eqb_eq in H. simpl. congruence. }
    rewrite M. auto.
  - unfold ids in *. simpl. split; [now apply sorted_filter|]. split; [|exact P].
    rewrite Forall_forall in *. intros y Hy. apply B.
    apply in_map_iff in Hy as (r & <- & Hr). apply filter_In in Hr as [Hr _].
    now apply in_map.
Qed.

Lemma serve_keys (h : list request) (s : store) :
  StronglySorted Z.lt (ids s)
  /\ Forall (fun i => 1 <= i <= sqlite_sequence s) (ids s)
  /\ 0 <= sqlite_sequence s ->
  StronglySorted Z.lt (ids (serve s h))
  /\ Forall (fun i => 1 <= i <= sqlite_sequence (serve s h)) (ids (serve s h))
  /\ 0 <= sqlite_sequence (serve s h).
Proof.
  revert s. induction h as [|r h IH]; intros s K; simpl; [exact K|].
  apply IH. now apply handle_keys.
Qed.

Lemma built_keys (h : list request) :
  StronglySorted Z.lt (ids (serve empty_store h))
  /\ Forall (fun i => 1 <= i <= sqlite_sequence (serve empty_store h))
            (ids (serve empty_store h))
  /\ 0 <= sqlite_sequence (serve empty_store h).
Proof.
  apply serve_keys. simpl. repeat split; try constructor. lia.
Qed.

Lemma find_unique (rs : list row) (r : row) :
  NoDup (map id rs) -> In r rs -> find (has_id (id r)) rs = Some r.
Proof.
  induction rs as [|x rs IH]; simpl; [tauto|].
  intros ND [->|H].
  - unfold has_id. now rewrite Z.eqb_refl.
  - inversion ND as [|? ? N ND']; subst. unfold has_id at 1.
    destruct (Z.eqb_spec (id x) (id r)) as [E|E]; [|now apply IH].
    exfalso. apply N. rewrite E. now apply in_map.
Qed.

Lemma filter_one (rs : list row) (i : Z) :
  NoDup (map id rs) -> In i (map id rs) ->
  S (List.length (filter (fun r => negb (has_id i r)) rs)) = List.length rs.
Proof.
  induction rs as [|x rs IH]; simpl; [tauto|].
  intros ND H. inversion ND as [|? ? N ND']; subst. unfold has_id at 1.
  destruct (Z.eqb_spec (id x) i) as [E|E]; simpl.
  - subst i. now rewrite filter_none_has_id.
  - f_equal. apply IH; [exact ND'|]. destruct H; [contradiction|assumption].
Qed.

End Keys_of_the_table.

(** X1. In every table the API has built from the empty one, List returns
    the rows in strictly ascending order of id; so no id occurs twice, and
    every id lies between 1 and the AUTOINCREMENT counter. *)
Theorem listed_ids_ascend (h : list request) :
  let s := serve empty_store h in
  StronglySorted Z.lt (map id (SELECT_all s))
  /\ NoDup (map id (SELECT_all s))
  /\ Forall (fun r => 1 <= id r <= sqlite_sequence s) (SELECT_all s).
Proof.
  destruct (built_keys h) as (S & B & _). cbv zeta. unfold SELECT_all.
  split; [exact S|]. split; [now apply sorted_nodup|].
  unfold ids in B. now rewrite Forall_map in B.
Qed.

(** X2. In a table the API has built, an id names at most one row: the row
    fetched by id is the only listed row with that id, and Delete of an id
    that is present removes exactly one row. *)
Theorem id_names_one_row (h : list request) (i : Z) :
  let s := serve empty_store h in
  (forall r, SELECT_by_id s i = Some r <-> In r (SELECT_all s) /\ id r = i)
  /\ (In i (ids s) ->
      S (List.length (SELECT_all (fst (app_delete s i))))
      = List.length (SELECT_all s)).
Proof.
  destruct (built_keys h) as (S & _ & _). apply sorted_nodup in S.
  cbv zeta. unfold SELECT_by_id, SELECT_all, ids in *. split.
  - intros r. split.
    + intros F. apply find_some in F as [H1 H2].
      unfold has_id in H2. apply Z.eqb_eq in H2. tauto.
    + intros [H <-]. now apply find_unique.
  - intros H. simpl. now apply filter_one.
Qed.

Lemma id_names_one_row_witness :
  In 1 (ids (serve empty_store [Create website; Create website]))
  /\ S (List.length (SELECT_all (fst (app_delete
         (serve empty_store [Create website; Create website]) 1))))
     = 2%nat.
Proof.
  assert (H : In 1 (ids (serve empty_store [Create website; Create website])))
    by (left; reflexivity).
  split; [exact H|].
  exact (proj2 (id_names_one_row [Create website; Create website] 1) H).
Defined.

Lemma update_without_required_column_witness :
  In 1 (ids one_project)
  /\ app_put one_project 1
       (Body.make None None (Some "2024-12-01") (Some "Alice")
                  None None None None JNull)
     = (one_project, mkResponse 500 (ErrorMessage "Database update error")).
Proof.
  assert (H : In 1 (ids one_project)) by (left; reflexivity).
  split; [exact H|].
  exact (update_without_required_column one_project 1
           (Body.make None None (Some "2024-12-01") (Some "Alice")
                      None None None None JNull)
           H (or_introl eq_refl)).
Defined.

Lemma created_row (s : store) (b : Body.t) (r : row) :
  snd (app_post s b) = mkResponse 201 (Row r) ->
  id r = next_rowid s
  /\ fst (app_post s b) = mkStore (projects s ++ [r]) (id r).
Proof.
  destruct (app_post_cases s b) as [-> | (t & d & p & ->)]; simpl.
  - discriminate.
  - intros [= <-]. split; reflexivity.
Qed.

(** X3. Ids are never handed out twice: a row that Create makes after any
    further requests, Delete of the earlier row included, has a greater id
    than a row Create made before. *)
Theorem created_ids_grow (s : store) (b b' : Body.t) (h : list request)
  (r r' : row) :
  snd (app_post s b) = mkResponse 201 (Row r) ->
  snd (app_post (serve (fst (app_post s b)) h) b') = mkResponse 201 (Row r') ->
  id r < id r'.
Proof.
  intros C C'. apply created_row in C as [_ E]. apply created_row in C' as [I' _].
  pose proof (serve_sequence_grows h (fst (app_post s b))) as G.
  rewrite E in G at 1. simpl in G.
  pose proof (next_rowid_above (serve (fst (app_post s b)) h)). lia.
Qed.

Lemma created_ids_grow_witness :
  snd (app_post empty_store website)
  = mkResponse 201 (Row (created 1 "Website" "2024-12-01" "Alice" website))
  /\ snd (app_post (serve (fst (app_post empty_store website)) [Delete 1])
                   website)
     = mkResponse 201 (Row (created 2 "Website" "2024-12-01" "Alice" website))
  /\ 1 < 2.
Proof.
  assert (C : snd (app_post empty_store website)
              = mkResponse 201
                  (Row (created 1 "Website" "2024-12-01" "Alice" website)))
    by reflexivity.
  assert (C' : snd (app_post (serve (fst (app_post empty_store website))
                                    [Delete 1]) website)
               = mkResponse 201
                   (Row (created 2 "Website" "2024-12-01" "Alice" website)))
    by reflexivity.
  split; [exact C|]. split; [exact C'|].
  exact (created_ids_grow empty_store website website [Delete 1] _ _ C C').
Defined.

(** X4. Create followed by Delete of the id it returned gives back the
    list of rows there was, but not the id: the counter stays at the
    deleted id and the next rowid is one more. *)
Theorem create_then_delete (s : store) (b : Body.t) (r : row) :
  snd (app_post s b) = mkResponse 201 (Row r) ->
  let s' := fst (app_delete (fst (app_post s b)) (id r)) in
  SELECT_all s' = SELECT_all s
  /\ sqlite_sequence s' = id r
  /\ sqlite_sequence s < sqlite_sequence s'
  /\ next_rowid s' = id r + 1.
Proof.
  intros C. apply created_row in C as [I E]. cbv zeta. rewrite E.
  unfold SELECT_all. simpl.
  assert (F : filter (fun x => negb (has_id (id r) x)) (projects s ++ [r])
              = projects s).
  { rewrite filter_app. simpl. unfold has_id at 2. rewrite Z.eqb_refl. simpl.
    rewrite app_nil_r. apply filter_none_has_id.
    rewrite I. apply next_rowid_fresh. }
  rewrite F. split; [reflexivity|]. split; [reflexivity|].
  pose proof (next_rowid_above s). split; [lia|].
  unfold next_rowid in *. simpl. rewrite F. lia.
Qed.

Lemma create_then_delete_witness :
  snd (app_post one_project website)
  = mkResponse 201 (Row (created 2 "Website" "2024-12-01" "Alice" website))
  /\ SELECT_all (fst (app_delete (fst (app_post one_project website)) 2))
     = SELECT_all one_project
  /\ next_rowid (fst (app_delete (fst (app_post one_project website)) 2)) = 3.
Proof.
  assert (C : snd (app_post one_project website)
              = mkResponse 201
                  (Row (created 2 "Website" "2024-12-01" "Alice" website)))
    by reflexivity.
  destruct (create_then_delete one_project website _ C) as (L & _ & _ & N).
  split; [exact C|]. split; [exact L | exact N].
Defined.

Lemma update_keeps_ids_aux (s : store) (i : Z) (b : Body.t) :
  ids (fst (app_put s i b)) = ids s
  /\ sqlite_sequence (fst (app_put s i b)) = sqlite_sequence s.
Proof.
  destruct (app_put_cases s i b) as [-> | (t & d & p & ->)]; [auto|].
  unfold ids. simpl. rewrite map_map. split; [|reflexivity].
  apply map_ext_in. intros x _. destruct (has_id i x) eqn:H; [|reflexivity].
  unfold has_id in H. apply Z.eqb_eq in H. simpl. congruence.
Qed.

(** X5. Update never adds or removes a row and never changes an id or the
    counter, whatever the id and the body and whether it succeeds or not;
    rows with another id are exactly as they were. *)
Theorem update_keeps_other_rows (s : store) (i : Z) (b : Body.t) :
  let s' := fst (app_put s i b) in
  ids s' = ids s
  /\ sqlite_sequence s' = sqlite_sequence s
  /\ List.length (SELECT_all s') = List.length (SELECT_all s)
  /\ (forall r, id r <> i -> (In r (SELECT_all s') <-> In r (SELECT_all s))).
Proof.
  cbv zeta. destruct (app_put_cases s i b) as [-> | (t & d & p & ->)].
  - repeat split; auto.
  - unfold ids, SELECT_all. simpl. rewrite map_map, length_map.
    split; [|split; [reflexivity|split; [reflexivity|]]].
    + apply map_ext_in. intros x _. destruct (has_id i x) eqn:H; [|reflexivity].
      unfold has_id in H. apply Z.eqb_eq in H. simpl. congruence.
    + intros r Hne. rewrite in_map_iff. split.
      * intros (x & Hx & Hin). destruct (has_id i x) eqn:E.
        -- subst r. simpl in Hne. contradiction.
        -- now subst x.
      * intros Hin. exists r. split; [|exact Hin].
        unfold has_id. destruct (Z.eqb_spec (id r) i); [contradiction|reflexivity].
Qed.

(** X7. The last Update wins: after any Update of an id, an Update of the
    same id with a record that supplies title, deadline and person leaves
    the store, and gets the answer, it would have without the first one.
    In particular, repeating such an Update changes nothing. *)
Theorem update_overwrites (s : store) (i : Z) (b1 b2 : Body.t)
  (t d p : string) :
  Body.title b2 = Some t -> Body.deadline b2 = Some d ->
  Body.person b2 = Some p ->
  app_put (fst (app_put s i b1)) i b2 = app_put s i b2.
Proof.
  intros Ht Hd Hp.
  destruct (in_dec Z.eq_dec i (ids s)) as [Hi|Hi].
  - assert (Hi1 : In i (ids (fst (app_put s i b1)))).
    { destruct (update_keeps_ids_aux s i b1) as [E _]. now rewrite E. }
    rewrite (app_put_present _ i b2 t d p Hi1 Ht Hd Hp).
    rewrite (app_put_present s i b2 t d p Hi Ht Hd Hp).
    destruct (app_put_cases s i b1) as [-> | (t1 & d1 & p1 & ->)];
      [reflexivity|].
    simpl. rewrite map_map. f_equal. f_equal. apply map_ext_in.
    intros x _. destruct (has_id i x) eqn:H; [|now rewrite H].
    unfold has_id. simpl. now rewrite Z.eqb_refl.
  - rewrite (app_put_missing s i b1 Hi). reflexivity.
Qed.

Lemma update_overwrites_witness :
  Body.title website_done = Some "Website"
  /\ app_put (fst (app_put one_project 1 untitled)) 1 website_done
     = app_put one_project 1 website_done.
Proof.
  split; [reflexivity|].
  exact (update_overwrites one_project 1 untitled website_done
           "Website" "2024-12-01" "Alice" eq_refl eq_refl eq_refl).
Defined.

Section Independence.

Lemma app_put_rows (s : store) (i : Z) (b : Body.t) :
  fst (app_put s i b)
  = mkStore (map (put_row i b) (projects s)) (sqlite_sequence s).
Proof.
  unfold app_put, UPDATE. fold (put_values b). unfold put_row.
  destruct (existsb (has_id i) (projects s)) eqn:E.
  - destruct (written i (put_values b)); simpl; [reflexivity|].
    rewrite map_id. now destruct s.
  - simpl. destruct s as [rs q]. simpl in *. f_equal.
    rewrite <- (map_id rs) at 1. apply map_ext_in. intros x Hx.
    destruct (written i (put_values b)); [|reflexivity].
    destruct (has_id i x) eqn:H; [|reflexivity].
    assert (existsb (has_id i) rs = true)
      by (apply existsb_exists; eauto).
    congruence.
Qed.

Lemma put_row_id (i : Z) (b : Body.t) (x : row) : id (put_row i b x) = id x.
Proof.
  unfold put_row, written.
  destruct (Bound.title (put_values b)), (Bound.deadline (put_values b)),
    (Bound.person (put_values b)); try reflexivity.
  destruct (has_id i x) eqn:H; [|reflexivity].
  unfold has_id in H. apply Z.eqb_eq in H. simpl. congruence.
Qed.

Lemma put_row_other (i : Z) (b : Body.t) (x : row) :
  id x <> i -> put_row i b x = x.
Proof.
  intros H. unfold put_row. destruct (written i (put_values b)); [|reflexivity].
  unfold has_id. destruct (Z.eqb_spec (id x) i); [contradiction|reflexivity].
Qed.

Lemma put_row_commute (i j : Z) (b1 b2 : Body.t) (x : row) :
  i <> j ->
  put_row j b2 (put_row i b1 x) = put_row i b1 (put_row j b2 x).
Proof.
  intros Hij. destruct (Z.eq_dec (id x) i) as [E|E].
  - rewrite (put_row_other j b2 x) by congruence.
    apply put_row_other. rewrite put_row_id. congruence.
  - rewrite (put_row_other i b1 x) by exact E.
    symmetry. apply put_row_other. now rewrite put_row_id.
Qed.

End Independence.

(** X8. Requests about different rows do not interfere: two Updates of
    different ids, or an Update of one id and a Delete of another, leave
    the same store in either order; and two Deletes do so for any ids. *)
Theorem different_rows_independent (s : store) (i j : Z) (b1 b2 : Body.t) :
  i <> j ->
  fst (app_put (fst (app_put s i b1)) j b2)
  = fst (app_put (fst (app_put s j b2)) i b1)
  /\ fst (app_delete (fst (app_put s i b1)) j)
     = fst (app_put (fst (app_delete s j)) i b1)
  /\ fst (app_delete (fst (app_delete s i)) j)
     = fst (app_delete (fst (app_delete s j)) i).
Proof.
  intros Hij. rewrite !app_put_rows. simpl. rewrite ?app_put_rows. simpl.
  unfold DELETE. simpl. split; [|split]; f_equal.
  - rewrite !map_map. apply map_ext. intros x. now apply put_row_commute.
  - induction (projects s) as [|x rs IH]; simpl; [reflexivity|].
    assert (H : has_id j (put_row i b1 x) = has_id j x)
      by (unfold has_id; now rewrite put_row_id).
    rewrite H. destruct (has_id j x); simpl; now rewrite IH.
  - induction (projects s) as [|x rs IH]; simpl; [reflexivity|].
    destruct (has_id i x) eqn:Hi, (has_id j x) eqn:Hj; simpl;
      rewrite ?Hi, ?Hj; simpl; rewrite ?IH; reflexivity.
Qed.

Lemma different_rows_independent_witness :
  1 <> 2
  /\ fst (app_delete (fst (app_put (fst (app_post one_project website))
                                   1 website_done)) 2)
     = fst (app_put (fst (app_delete (fst (app_post one_project website)) 2))
                    1 website_done).
Proof.
  assert (H : 1 <> 2) by discriminate.
  split; [exact H|].
  exact (proj1 (proj2 (different_rows_independent
                         (fst (app_post one_project website)) 1 2
                         website_done website_done H))).
Defined.

(** X9. A deleted row cannot be brought back by Update: after Delete of an
    id, an Update of that id answers 200 with no body, finds no row, and
    leaves the store as Delete left it. *)
Theorem update_after_delete (s : store) (i : Z) (b : Body.t) :
  let s' := fst (app_delete s i) in
  app_put s' i b = (s', mkResponse 200 Undefined)
  /\ SELECT_by_id s' i = None.
Proof.
  cbv zeta. simpl.
  assert (H : ~ In i (ids (DELETE s i))).
  { unfold ids, DELETE. simpl. intros H.
    apply in_map_iff in H as (r & Hid & Hin). apply filter_In in Hin as [_ Hn].
    unfold has_id in Hn. rewrite Hid, Z.eqb_refl in Hn. discriminate. }
  split; [now apply app_put_missing | now apply find_has_id_none].
Qed.

(** * Further properties of the front end *)

Section In_step.

Lemma truthy_flag (z : Z) : truthy (JNum (inject_Z z)) = negb (z =? 0).
Proof.
  simpl. unfold Qeq_bool. simpl. rewrite Z.mul_1_r.
  destruct z; reflexivity.
Qed.

Lemma strict_eq_ids (a b : Z) :
  strict_eq (JNum (inject_Z a)) (JNum (inject_Z b)) = (a =? b).
Proof.
  simpl. unfold Qeq_bool. simpl. rewrite !Z.mul_1_r. reflexivity.
Qed.

Lemma text_field_opt_text (f : option string) :
  text_field (opt_text f) = Some f.
Proof. now destruct f. Qed.

Lemma number_field_opt_number (f : option Q) :
  number_field (opt_number f) = Some f.
Proof. now destruct f. Qed.

Lemma toggle_request (r : row) :
  and_then (updated (row_json r)) destructure = Some (toggle_body r)
  /\ and_then (member (row_json r) "id") path_id = Some (id r).
Proof.
  split; [|reflexivity].
  unfold updated, row_json. simpl. unfold destructure, field. simpl.
  rewrite !text_field_opt_text, !number_field_opt_number. reflexivity.
Qed.

Lemma toggle_body_row (r : row) :
  replaced (id r) (title r) (deadline r) (person r) (toggle_body r) = toggled r.
Proof.
  unfold replaced, toggled, toggle_body.
  cbn [Body.description Body.client Body.contact Body.achievements
       Body.price Body.finished].
  f_equal. rewrite truthy_flag. destruct (finished r =? 0); reflexivity.
Qed.

Lemma added_in_step (s : store) (b : Body.t) (r : row) :
  snd (app_post s b) = mkResponse 201 (Row r) ->
  addProject (map row_json (projects s)) (received (snd (app_post s b)))
  = map row_json (projects (fst (app_post s b))).
Proof.
  intros C. destruct (created_row s b r C) as [_ E]. rewrite C, E. simpl.
  now rewrite map_app.
Qed.

Lemma deleted_in_step (rs : list row) (i st : Z) (v : jsval) :
  deleteProject (map row_json rs) (JNum (inject_Z i)) (Response st (Some v))
  = Some (map row_json (filter (fun r => negb (has_id i r)) rs)).
Proof.
  unfold deleteProject. induction rs as [|x rs IH]; [reflexivity|].
  change (map row_json (x :: rs)) with (row_json x :: map row_json rs).
  cbn [Array_filter]. rewrite IH.
  change (member (row_json x) "id") with (Some (JNum (inject_Z (id x)))).
  cbn [filter]. rewrite strict_eq_ids. unfold has_id.
  destruct (id x =? i); reflexivity.
Qed.

Lemma toggled_in_step (rs : list row) (r' : row) (st : Z) :
  toggleFinished (map row_json rs) (Response st (Some (row_json r')))
  = Some (map row_json
            (map (fun x => if has_id (id r') x then r' else x) rs)).
Proof.
  unfold toggleFinished. induction rs as [|x rs IH]; [reflexivity|].
  change (map row_json (x :: rs)) with (row_json x :: map row_json rs).
  cbn [Array_map]. rewrite IH.
  change (member (row_json x) "id") with (Some (JNum (inject_Z (id x)))).
  change (member (row_json r') "id") with (Some (JNum (inject_Z (id r')))).
  cbn [map]. rewrite strict_eq_ids. unfold has_id.
  destruct (id x =? id r'); reflexivity.
Qed.

Lemma toggle_served (s : store) (r : row) :
  In r (projects s) ->
  app_put s (id r) (toggle_body r)
  = (mkStore (map (fun x => if has_id (id r) x then toggled r else x)
                  (projects s))
             (sqlite_sequence s),
     mkResponse 200 (Row (toggled r))).
Proof.
  intros H.
  rewrite (app_put_present s (id r) (toggle_body r)
             (title r) (deadline r) (person r)); try reflexivity.
  - now rewrite toggle_body_row.
  - unfold ids. now apply in_map.
Qed.

End In_step.

Section Sessions.

Lemma toggle_request_parts (r : row) :
  exists body,
    updated (row_json r) = Some body
    /\ destructure body = Some (toggle_body r).
Proof.
  eexists. split; [reflexivity|].
  unfold destructure, field. simpl.
  rewrite !text_field_opt_text, !number_field_opt_number. reflexivity.
Qed.

Lemma nth_row (rs : list row) (n : nat) (p : jsval) :
  nth_error (map row_json rs) n = Some p ->
  exists r, p = row_json r /\ In r rs.
Proof.
  rewrite nth_error_map. destruct (nth_error rs n) as [r|] eqn:E; [|discriminate].
  intros [= <-]. exists r. split; [reflexivity|]. eapply nth_error_In; eauto.
Qed.

Lemma clicked_in_step (s : store) (c : click) :
  match c with Save project => saveable project | _ => True end ->
  exists s',
    clicked s (map row_json (projects s)) c
    = Some (s', map row_json (projects s')).
Proof.
  destruct c as [project|n|n]; intros H; unfold clicked.
  - destruct H as (b & t & d & p & D & Ht & Hte & Hd & Hde & Hp & Hpe).
    rewrite D. simpl.
    pose proof (app_post_accepted s b t d p Ht Hte Hd Hde Hp Hpe) as A.
    assert (C : snd (app_post s b)
                = mkResponse 201 (Row (created (next_rowid s) t d p b)))
      by (now rewrite A).
    pose proof (added_in_step s b _ C) as I.
    destruct (app_post s b) as [s1 res]. simpl in I.
    exists s1. now rewrite I.
  - destruct (nth_error (map row_json (projects s)) n) as [p|] eqn:E;
      [|eexists; reflexivity].
    apply nth_row in E as (r & -> & Hr).
    destruct (toggle_request_parts r) as (body & -> & D).
    cbn [and_then].
    change (member (row_json r) "id") with (Some (JNum (inject_Z (id r)))).
    cbn [and_then path_id inject_Z Qden Qnum Pos.eqb]. rewrite D.
    cbn [and_then]. rewrite (toggle_served s r Hr).
    change (received (mkResponse 200 (Row (toggled r))))
      with (Response 200 (Some (row_json (toggled r)))).
    rewrite toggled_in_step. cbn [and_then].
    change (id (toggled r)) with (id r).
    exists (mkStore (map (fun x => if has_id (id r) x then toggled r else x)
                         (projects s))
                    (sqlite_sequence s)).
    reflexivity.
  - destruct (nth_error (map row_json (projects s)) n) as [p|] eqn:E;
      [|eexists; reflexivity].
    apply nth_row in E as (r & -> & Hr).
    change (member (row_json r) "id") with (Some (JNum (inject_Z (id r)))).
    cbn [and_then path_id inject_Z Qden Qnum Pos.eqb].
    unfold app_delete.
    change (received (res_json SuccessTrue))
      with (Response 200 (Some (JObj [("success", JBool true)]))).
    change (JNum {| Qnum := id r; Qden := 1 |}) with (JNum (inject_Z (id r))).
    rewrite deleted_in_step. cbn [and_then].
    exists (DELETE s (id r)). reflexivity.
Qed.

End Sessions.

(** X10. After [addProject] the list equals what List returns exactly when
    the server accepted the Create with 201: then the returned row is the
    one new entry; a rejected Create leaves an entry that is no row. *)
Theorem add_in_step_iff_accepted (s : store) (b : Body.t) :
  addProject (map row_json (SELECT_all s)) (received (snd (app_post s b)))
  = map row_json (SELECT_all (fst (app_post s b)))
  <-> status (snd (app_post s b)) = 201.
Proof.
  unfold SELECT_all.
  destruct (app_post_cases s b) as [E | (t & d & p & E)].
  - rewrite E. simpl. split; [|discriminate].
    intros H. apply (f_equal (@List.length jsval)) in H.
    rewrite length_app in H. simpl in H. lia.
  - split; [now rewrite E|]. intros _.
    apply (added_in_step s b (created (next_rowid s) t d p b)).
    now rewrite E.
Qed.

(** X11. [deleteProject] keeps the list in step with the table: with the
    id of a listed row, as the Delete button passes it, the list after the
    server's answer is what List returns after the Delete. *)
Theorem delete_in_step (s : store) (i : Z) :
  deleteProject (map row_json (SELECT_all s)) (JNum (inject_Z i))
                (received (snd (app_delete s i)))
  = Some (map row_json (SELECT_all (fst (app_delete s i))))
  /\ (forall r, member (row_json r) "id" = Some (JNum (inject_Z (id r)))).
Proof.
  split; [|reflexivity]. unfold SELECT_all, app_delete. simpl.
  apply (deleted_in_step (projects s) i 200 (JObj [("success", JBool true)])).
Qed.

(** X12. [toggleFinished] on a listed row keeps the list in step with the
    table: the request carries the row with only its flag turned (1 when
    finished was 0, else 0), the server answers 200 with that row, and the
    list after the answer is what List returns after the Update. *)
Theorem toggle_in_step (s : store) (r : row) :
  In r (SELECT_all s) ->
  and_then (updated (row_json r)) destructure = Some (toggle_body r)
  /\ and_then (member (row_json r) "id") path_id = Some (id r)
  /\ snd (app_put s (id r) (toggle_body r))
     = mkResponse 200
         (Row (mkRow (id r) (title r) (description r) (deadline r) (person r)
                     (client r) (contact r) (achievements r) (price r)
                     (if finished r =? 0 then 1 else 0)))
  /\ toggleFinished (map row_json (SELECT_all s))
                    (received (snd (app_put s (id r) (toggle_body r))))
     = Some (map row_json (SELECT_all (fst (app_put s (id r) (toggle_body r))))).
Proof.
  unfold SELECT_all. intros H.
  destruct (toggle_request r) as [Q P]. split; [exact Q|]. split; [exact P|].
  rewrite (toggle_served s r H). split; [reflexivity|].
  apply (toggled_in_step (projects s) (toggled r) 200).
Qed.

Lemma toggle_in_step_witness :
  In (created 1 "Website" "2024-12-01" "Alice" website) (SELECT_all one_project)
  /\ map finished
       (SELECT_all (fst (app_put one_project 1
          (toggle_body (created 1 "Website" "2024-12-01" "Alice" website)))))
     = [1]
  /\ toggleFinished (map row_json (SELECT_all one_project))
       (received (snd (app_put one_project 1
          (toggle_body (created 1 "Website" "2024-12-01" "Alice" website)))))
     = Some (map row_json (SELECT_all (fst (app_put one_project 1
          (toggle_body (created 1 "Website" "2024-12-01" "Alice" website)))))).
Proof.
  assert (H : In (created 1 "Website" "2024-12-01" "Alice" website)
                 (SELECT_all one_project)) by (left; reflexivity).
  destruct (toggle_in_step one_project _ H) as (_ & _ & _ & T).
  split; [exact H|]. split; [reflexivity | exact T].
Defined.

(** X14. Toggling an entry whose row is no longer in the table changes
    nothing locally: the server answers 200 without a body, reading it as
    JSON fails, and the list stays as it was, stale entry included. *)
Theorem stale_toggle_keeps_list (s : store) (i : Z) (b : Body.t)
  (prev : list jsval) :
  ~ In i (ids s) ->
  toggleFinished prev (received (snd (app_put s i b))) = Some prev
  /\ fst (app_put s i b) = s.
Proof.
  intros H. rewrite (app_put_missing s i b H). split; reflexivity.
Qed.

Lemma stale_toggle_keeps_list_witness :
  ~ In 7 (ids one_project)
  /\ toggleFinished [row_json (of_client 7 "Acme" "a@x")]
       (received (snd (app_put one_project 7
                         (toggle_body (of_client 7 "Acme" "a@x")))))
     = Some [row_json (of_client 7 "Acme" "a@x")].
Proof.
  assert (H : ~ In 7 (ids one_project)).
  { simpl. intros [H|[]]. discriminate. }
  split; [exact H|].
  exact (proj1 (stale_toggle_keeps_list one_project 7 _ _ H)).
Defined.

(** X15. The list mirrors the table.  After mount the state is the array
    of the table's rows; and from there, through any sequence of clicks on
    Save, Complete and Delete in which every saved project passes the
    server's check, every request is served and the list equals what List
    returns. *)
Theorem list_mirrors_table (s : store) (cs : list click) :
  saves_pass cs ->
  mounted (received (snd (app_get s))) = JArr (map row_json (SELECT_all s))
  /\ exists s',
       session s (map row_json (SELECT_all s)) cs
       = Some (s', map row_json (SELECT_all s')).
Proof.
  intros P. split; [reflexivity|]. unfold SELECT_all.
  revert s. induction P as [|c cs Hc _ IH]; intros s; simpl.
  - eexists. reflexivity.
  - destruct (clicked_in_step s c Hc) as (s1 & ->). apply IH.
Qed.

Lemma list_mirrors_table_witness :
  saves_pass [Save (row_json (of_client 0 "Acme" "a@x")); Complete 0; Remove 0]
  /\ session empty_store []
       [Save (row_json (of_client 0 "Acme" "a@x")); Complete 0; Remove 0]
     = Some (mkStore [] 1, []).
Proof.
  assert (P : saves_pass [Save (row_json (of_client 0 "Acme" "a@x"));
                          Complete 0; Remove 0]).
  { repeat constructor.
    exists (Body.make (Some "Website") (Some "") (Some "2024-12-01")
                      (Some "Alice") (Some "Acme") (Some "a@x")
                      (Some 0%Q) (Some 0%Q) (JNum 0)),
           "Website", "2024-12-01", "Alice".
    repeat split; discriminate. }
  destruct (list_mirrors_table empty_store _ P) as (_ & s' & E).
  split; [exact P | reflexivity].
Defined.

Lemma toggled_twice (r : row) : flag r -> toggled (toggled r) = r.
Proof.
  unfold flag, toggled. destruct r as [i t ds dl pe cl co ac pr f]. simpl.
  intros [-> | ->]; reflexivity.
Qed.

Lemma same_id_same_row (rs : list row) (r x : row) :
  NoDup (map id rs) -> In r rs -> In x rs -> id x = id r -> x = r.
Proof.
  intros ND Hr Hx E.
  pose proof (find_unique rs r ND Hr) as F1.
  pose proof (find_unique rs x ND Hx) as F2.
  rewrite E in F2. congruence.
Qed.

Lemma toggled_twice_flag (r : row) :
  finished (toggled (toggled r)) = (if finished r =? 0 then 0 else 1).
Proof. simpl. destruct (finished r =? 0); reflexivity. Qed.

(** X13. Toggling a listed row twice, the second request made from the
    row the first one returned, touches nothing but the flag of that row,
    which ends as 0 when it was 0 and as 1 otherwise.  So where ids are
    not repeated and the row's finished is 0 or 1, the store is again as
    it was. *)
Theorem toggle_twice_restores (s : store) (r : row) :
  In r (SELECT_all s) ->
  let s1 := fst (app_put s (id r) (toggle_body r)) in
  let s2 := fst (app_put s1 (id (toggled r)) (toggle_body (toggled r))) in
  snd (app_put s (id r) (toggle_body r)) = mkResponse 200 (Row (toggled r))
  /\ s2 = mkStore
            (map (fun x =>
                    if has_id (id r) x
                    then mkRow (id r) (title r) (description r) (deadline r)
                               (person r) (client r) (contact r)
                               (achievements r) (price r)
                               (if finished r =? 0 then 0 else 1)
                    else x)
                 (projects s))
            (sqlite_sequence s)
  /\ (NoDup (ids s) -> finished r = 0 \/ finished r = 1 -> s2 = s).
Proof.
  cbv zeta. unfold SELECT_all. intros Hr.
  rewrite (toggle_served s r Hr). split; [reflexivity|]. simpl fst.
  assert (H1 : In (toggled r)
                  (map (fun x => if has_id (id r) x then toggled r else x)
                       (projects s))).
  { apply in_map_iff. exists r. split; [|exact Hr].
    unfold has_id. now rewrite Z.eqb_refl. }
  assert (E : fst (app_put
                     (mkStore
                        (map (fun x => if has_id (id r) x then toggled r else x)
                             (projects s))
                        (sqlite_sequence s))
                     (id r) (toggle_body (toggled r)))
              = mkStore
                  (map (fun x => if has_id (id r) x
                                 then toggled (toggled r) else x)
                       (projects s))
                  (sqlite_sequence s)).
  { pose proof (toggle_served
                  (mkStore
                     (map (fun x => if has_id (id r) x then toggled r else x)
                          (projects s))
                     (sqlite_sequence s))
                  (toggled r) H1) as T.
    change (id (toggled r)) with (id r) in T. rewrite T.
    simpl. rewrite map_map.
    f_equal. apply map_ext. intros x. destruct (has_id (id r) x) eqn:H.
    - unfold has_id. simpl. now rewrite Z.eqb_refl.
    - now rewrite H. }
  rewrite E. split.
  - f_equal. apply map_ext. intros x. destruct (has_id (id r) x); [|reflexivity].
    unfold toggled. simpl. f_equal. destruct (finished r =? 0); reflexivity.
  - intros ND F. rewrite (toggled_twice r F).
    destruct s as [rs q]. simpl in *. f_equal.
    rewrite <- (map_id rs) at 2. apply map_ext_in. intros x Hx.
    destruct (has_id (id r) x) eqn:H; [|reflexivity].
    unfold has_id in H. apply Z.eqb_eq in H.
    symmetry. now apply (same_id_same_row rs r x ND Hr Hx).
Qed.

Lemma toggle_twice_restores_witness :
  In (created 1 "Website" "2024-12-01" "Alice" website)
     (SELECT_all one_project)
  /\ NoDup (ids one_project)
  /\ fst (app_put (fst (app_put one_project 1
                    (toggle_body (created 1 "Website" "2024-12-01" "Alice"
                                          website))))
                  1
                  (toggle_body (toggled (created 1 "Website" "2024-12-01"
                                                 "Alice" website))))
     = one_project.
Proof.
  assert (H : In (created 1 "Website" "2024-12-01" "Alice" website)
                 (SELECT_all one_project))
    by (left; reflexivity).
  assert (N : NoDup (ids one_project))
    by (repeat constructor; simpl; tauto).
  split; [exact H|]. split; [exact N|].
  exact (proj2 (proj2 (toggle_twice_restores one_project _ H)) N
               (or_introl eq_refl)).
Defined.

(** * Further properties of the clients page *)

Section Reading_clients.

Lemma client_key_none (p : jsval) : client_key p = None <-> unreadable p.
Proof.
  unfold client_key, unreadable. split.
  - destruct (member p "client") as [c|] eqn:M.
    + unfold js_or. destruct (truthy c) eqn:T; [|discriminate].
      destruct c; try discriminate; intros _; right; right;
        eexists; (split; [reflexivity|]); (split; [exact T|]);
        intros s; discriminate.
    + intros _. destruct p; try discriminate; auto.
  - intros [-> | [-> | (c & -> & T & N)]]; try reflexivity.
    unfold js_or. rewrite T. destruct c; try reflexivity.
    exfalso. now apply (N s).
Qed.

Lemma visit_none (m : list (string * Info.t)) (p : jsval) :
  visit m p = None <-> client_key p = None.
Proof.
  unfold visit. destruct (client_key p) as [k|] eqn:K; [|tauto].
  assert (C : exists v, member p "contact" = Some v).
  { unfold client_key in K. destruct p; try discriminate; eexists; reflexivity. }
  destruct C as (v & ->). split; [|discriminate].
  destruct (truthy (JStr k)); [|discriminate].
  destruct (clientMap_get m k); discriminate.
Qed.

Lemma forEach_none (ps : list jsval) (m : list (string * Info.t)) :
  forEach visit ps m = None <-> Exists (fun p => client_key p = None) ps.
Proof.
  revert m. induction ps as [|p ps IH]; intros m; simpl.
  - split; [discriminate | intros H; inversion H].
  - destruct (visit m p) as [m'|] eqn:V.
    + rewrite IH. split; [now right|].
      intros H. inversion H as [? ? K|]; subst; [|assumption].
      apply (visit_none m) in K. congruence.
    + split; [|reflexivity]. intros _. left. now apply (visit_none m).
Qed.

Lemma visit_no_client (m : list (string * Info.t)) (p : jsval) :
  client_key p = Some "" -> visit m p = Some m.
Proof.
  intros K. unfold visit. rewrite K.
  unfold client_key in K. destruct p; try discriminate; reflexivity.
Qed.

End Reading_clients.

(** X16. [ClientsPage] throws exactly when some entry of the list is
    [undefined] or [null] or has a client that is truthy and not a string.
    An entry with no client, with a null client or with a client of white
    space only (the error object a failed request leaves, for one) is
    passed over: the view is the same without it. *)
Theorem clients_page_throws_iff :
  (forall ps, ClientsPage ps = None <-> Exists unreadable ps)
  /\ (forall ps1 p ps2, client_key p = Some "" ->
        ClientsPage (ps1 ++ p :: ps2) = ClientsPage (ps1 ++ ps2))
  /\ (forall o, assoc "client" o = None -> client_key (JObj o) = Some "").
Proof.
  split; [|split].
  - intros ps. unfold ClientsPage.
    destruct (forEach visit ps []) as [m|] eqn:F.
    + split; [discriminate|]. intros H.
      assert (E : Exists (fun p => client_key p = None) ps).
      { eapply Exists_impl; [|exact H]. intros a. apply client_key_none. }
      apply (forEach_none ps []) in E. congruence.
    + split; [|reflexivity]. intros _. apply forEach_none in F.
      eapply Exists_impl; [|exact F]. intros a. apply client_key_none.
  - intros ps1 p ps2 K. unfold ClientsPage. rewrite !forEach_app. simpl.
    destruct (forEach visit ps1 []) as [m|]; [|reflexivity].
    now rewrite (visit_no_client m p K).
  - intros o H. unfold client_key. simpl. now rewrite H.
Qed.

Lemma clients_page_throws_iff_witness :
  client_key insertion_error = Some ""
  /\ ClientsPage ([row_json (of_client 1 "Acme" "a@x")] ++ insertion_error :: [])
     = ClientsPage ([row_json (of_client 1 "Acme" "a@x")] ++ []).
Proof.
  destruct clients_page_throws_iff as (_ & P & _).
  split; [reflexivity|].
  exact (P [row_json (of_client 1 "Acme" "a@x")] insertion_error [] eq_refl).
Defined.

Section Totals.

Lemma total_assign_some (k : string) (v i : Info.t) (m : list (string * Info.t)) :
  assoc k m = Some i ->
  clientMap_total (assign k v m)
  = clientMap_total m - Info.count i + Info.count v.
Proof.
  induction m as [|[k' v'] m IH]; simpl; [discriminate|].
  destruct (String.eqb k k'); simpl.
  - intros [= ->]. lia.
  - intros H. rewrite (IH H). lia.
Qed.

Lemma total_assign_none (k : string) (v : Info.t) (m : list (string * Info.t)) :
  assoc k m = None ->
  clientMap_total (assign k v m) = clientMap_total m + Info.count v.
Proof.
  induction m as [|[k' v'] m IH]; simpl; [lia|].
  destruct (String.eqb k k'); simpl; [discriminate|].
  intros H. rewrite (IH H). lia.
Qed.

Lemma total_step (rs : list row) (m m' : list (string * Info.t)) (r : row) :
  tallies rs m -> visit m (row_json r) = Some m' ->
  clientMap_total m'
  = clientMap_total m + (if countable r then 1 else 0).
Proof.
  intros [_ T] V. rewrite visit_row in V. unfold countable.
  destruct (truthy (JStr (client_name r))) eqn:K; simpl.
  2:{ injection V as <-. lia. }
  unfold clientMap_get in V. specialize (T (client_name r)).
  destruct (assoc (client_name r) m) as [i|] eqn:A.
  - destruct T as (_ & -> & _). simpl. injection V as <-.
    rewrite (total_assign_some _ _ i m A).
    destruct (negb (truthy (Info.contact i)) && truthy (opt_text (contact r)));
      simpl; lia.
  - destruct (inherited (client_name r)); simpl; injection V as <-.
    + lia.
    + rewrite (total_assign_none _ _ m A). simpl. lia.
Qed.

Lemma total_forEach (rs done : list row) (m m' : list (string * Info.t)) :
  tallies done m -> forEach visit (map row_json rs) m = Some m' ->
  clientMap_total m'
  = clientMap_total m + Z.of_nat (List.length (filter countable rs)).
Proof.
  revert done m. induction rs as [|r rs IH]; intros done m T; simpl.
  - intros [= <-]. lia.
  - destruct (tallies_step done m r T) as (m1 & V & T1). rewrite V.
    intros F. rewrite (IH _ _ T1 F), (total_step done m m1 r T V).
    destruct (countable r); simpl; lia.
Qed.

Lemma own_listed (m : list (string * Info.t)) :
  NoDup (map fst m) -> map (own m) (map fst m) = map snd m.
Proof.
  induction m as [|[k v] m IH]; simpl; [reflexivity|].
  intros ND. inversion ND as [|? ? N ND']; subst.
  unfold own at 1. simpl. rewrite String.eqb_refl. f_equal.
  rewrite <- (IH ND'). apply map_ext_in. intros a Ha.
  unfold own. simpl. destruct (String.eqb_spec a k) as [->|E];
    [contradiction | reflexivity].
Qed.

Lemma total_permuted (f : string -> Z) (l l' : list string) :
  Permutation l l' ->
  fold_right (fun k n => f k + n) 0 l = fold_right (fun k n => f k + n) 0 l'.
Proof. induction 1; simpl; lia. Qed.

Lemma total_mapped {A : Type} (h : A -> Info.t) (l : list A) :
  fold_right (fun a n => Info.count (h a) + n) 0 l
  = fold_right (fun i n => Info.count i + n) 0 (map h l).
Proof. induction l as [|a l IH]; simpl; [reflexivity|]. now rewrite IH. Qed.

Lemma view_total (m : list (string * Info.t)) :
  NoDup (map fst m) ->
  total_count (map (fun name =>
                      Client.make name (Info.contact (own m name))
                                       (Info.count (own m name)))
                   (Object_keys m))
  = clientMap_total m.
Proof.
  intros ND. unfold total_count.
  transitivity (fold_right (fun k n => Info.count (own m k) + n) 0
                           (Object_keys m)).
  { induction (Object_keys m) as [|k l IH]; simpl; [reflexivity|].
    now rewrite IH. }
  rewrite (total_permuted _ _ _ (Object_keys_perm m)).
  unfold clientMap_total.
  rewrite (total_mapped (own m) (map fst m)), (own_listed m ND).
  symmetry. apply total_mapped.
Qed.

End Totals.

Lemma plain_countable (rs : list row) :
  plain_names rs ->
  filter countable rs
  = filter (fun r => negb (String.eqb (trim (or_empty (client r))) "")) rs.
Proof.
  intros P. apply filter_ext_in. intros r Hr.
  unfold plain_names in P. rewrite Forall_forall in P. specialize (P r Hr).
  unfold countable, client_name. rewrite P. simpl. apply andb_true_r.
Qed.

(** X17. When no row's trimmed client is a name every object inherits, the
    counts of the clients view add up to the number of rows that have a
    client: each row whose client is not empty or white space only is
    counted exactly once. *)
Theorem clients_counts_add_up (rs : list row) (view : list Client.t) :
  Forall (fun r => inherited (trim (or_empty (client r))) = false) rs ->
  ClientsPage (map row_json rs) = Some view ->
  total_count view
  = Z.of_nat (List.length
      (filter (fun r => negb (String.eqb (trim (or_empty (client r))) "")) rs))
  /\ total_count view <= Z.of_nat (List.length rs).
Proof.
  intros P. unfold ClientsPage.
  destruct (forEach visit (map row_json rs) []) as [m|] eqn:F; [|discriminate].
  intros [= <-].
  destruct (tallies_forEach rs [] [] tallies_nil) as (m' & F' & [ND _]).
  rewrite F in F'. injection F' as <-.
  rewrite (view_total m ND), (total_forEach rs [] [] m tallies_nil F). simpl.
  rewrite (plain_countable rs P).
  split; [reflexivity|].
  pose proof (filter_length_le
                (fun r => negb (String.eqb (trim (or_empty (client r))) "")) rs).
  lia.
Qed.

Lemma clients_counts_add_up_witness :
  Forall (fun r => inherited (trim (or_empty (client r))) = false) spaced
  /\ ClientsPage (map row_json spaced)
     = Some [Client.make "Acme" (JStr "a@x") 2]
  /\ total_count [Client.make "Acme" (JStr "a@x") 2] = 2.
Proof.
  assert (P : Forall (fun r => inherited (trim (or_empty (client r))) = false)
                     spaced) by (repeat constructor).
  assert (E : ClientsPage (map row_json spaced)
              = Some [Client.make "Acme" (JStr "a@x") 2]) by reflexivity.
  split; [exact P|]. split; [exact E|].
  exact (proj1 (clients_counts_add_up spaced _ P E)).
Defined.

Section Order.

Lemma first_seen_in (k : string) (l : list string) :
  In k (first_seen l) <-> In k l.
Proof. unfold first_seen. now rewrite <- in_rev, nodup_In, <- in_rev. Qed.

Lemma first_seen_snoc (l : list string) (k : string) :
  first_seen (l ++ [k])
  = if in_dec string_dec k l then first_seen l else first_seen l ++ [k].
Proof.
  unfold first_seen. rewrite rev_unit. simpl.
  destruct (in_dec string_dec k (rev l)) as [I|I],
           (in_dec string_dec k l) as [J|J]; try reflexivity.
  - exfalso. apply J. now apply in_rev.
  - exfalso. apply I. now apply in_rev in J.
Qed.

Lemma counted_names_snoc (rs : list row) (r : row) :
  counted_names (rs ++ [r])
  = counted_names rs ++ (if countable r then [client_name r] else []).
Proof.
  unfold counted_names. rewrite filter_app, map_app. simpl.
  now destruct (countable r).
Qed.

Lemma counted_names_countable (rs : list row) (k : string) :
  In k (counted_names rs) -> truthy (JStr k) && negb (inherited k) = true.
Proof.
  unfold counted_names. intros H. apply in_map_iff in H as (r & <- & Hr).
  apply filter_In in Hr as [_ C]. exact C.
Qed.

Lemma order_step (rs : list row) (m m' : list (string * Info.t)) (r : row) :
  map fst m = first_seen (counted_names rs) ->
  visit m (row_json r) = Some m' ->
  map fst m' = first_seen (counted_names (rs ++ [r])).
Proof.
  intros O V. rewrite visit_row in V. rewrite counted_names_snoc.
  unfold countable.
  destruct (truthy (JStr (client_name r))) eqn:K; simpl.
  2:{ injection V as <-. now rewrite app_nil_r. }
  unfold clientMap_get in V.
  destruct (assoc (client_name r) m) as [i|] eqn:A.
  - apply assoc_some_in in A as I. injection V as <-.
    rewrite keys_assign. destruct (in_dec string_dec _ (map fst m)); [|tauto].
    rewrite O in I. apply (proj1 (first_seen_in _ _)) in I.
    pose proof (counted_names_countable rs _ I) as C. rewrite K in C.
    simpl in C. rewrite C. rewrite first_seen_snoc.
    destruct (in_dec string_dec _ (counted_names rs)); [exact O | tauto].
  - destruct (inherited (client_name r)); simpl; injection V as <-.
    + now rewrite app_nil_r.
    + apply assoc_none in A. rewrite keys_assign.
      destruct (in_dec string_dec _ (map fst m)); [tauto|].
      rewrite first_seen_snoc.
      destruct (in_dec string_dec _ (counted_names rs)) as [J|J].
      * exfalso. apply A. rewrite O. now apply first_seen_in.
      * now rewrite O.
Qed.

Lemma order_forEach (rs done : list row) (m m' : list (string * Info.t)) :
  map fst m = first_seen (counted_names done) ->
  forEach visit (map row_json rs) m = Some m' ->
  map fst m' = first_seen (counted_names (done ++ rs)).
Proof.
  revert done m. induction rs as [|r rs IH]; intros done m O; simpl.
  - intros [= <-]. now rewrite app_nil_r.
  - destruct (visit m (row_json r)) as [m1|] eqn:V; [|discriminate].
    intros F. rewrite (app_assoc done [r] rs : done ++ r :: rs = _).
    apply (IH (done ++ [r]) m1); [|exact F].
    now apply (order_step done m m1 r).
Qed.

Lemma insert_index_sorted (n : N) (k : string) (l : list (N * string)) :
  StronglySorted (fun a b => (fst a <= fst b)%N) l ->
  StronglySorted (fun a b => (fst a <= fst b)%N) (insert_index n k l).
Proof.
  induction 1 as [|[m k'] l S IH F]; simpl.
  - repeat constructor.
  - destruct (N.leb_spec n m) as [L|L].
    + constructor; [now constructor|]. constructor; [exact L|].
      eapply Forall_impl; [|exact F]. simpl. intros a Ha. lia.
    + constructor; [exact IH|].
      assert (P : Permutation (insert_index n k l) ((n, k) :: l))
        by apply insert_index_perm.
      apply (Permutation_Forall (Permutation_sym P)).
      constructor; [simpl; lia | exact F].
Qed.

Lemma index_keys_sorted (names : list string) :
  StronglySorted (fun a b => (fst a <= fst b)%N) (index_keys names)
  /\ Forall (fun e => array_index (snd e) = Some (fst e)) (index_keys names).
Proof.
  induction names as [|k names [S F]]; simpl; [split; constructor|].
  destruct (array_index k) as [n|] eqn:E; [|now split].
  split; [now apply insert_index_sorted|].
  apply (Permutation_Forall (Permutation_sym (insert_index_perm n k _))).
  now constructor.
Qed.

Lemma all_named (l : list string) :
  Forall (fun k => is_named k = true) l ->
  index_keys l = [] /\ filter is_named l = l.
Proof.
  induction 1 as [|k l Hk N [E1 E2]]; simpl; [now split|].
  rewrite Hk, E2. unfold is_named in Hk.
  destruct (array_index k); [discriminate | now split].
Qed.

End Order.

Lemma plain_counted_names (rs : list row) :
  plain_names rs ->
  counted_names rs
  = filter (fun k => negb (String.eqb k ""))
           (map (fun r => trim (or_empty (client r))) rs).
Proof.
  intros P. unfold counted_names. rewrite (plain_countable rs P).
  induction rs as [|r rs IH]; simpl; [reflexivity|].
  inversion P; subst. unfold client_name at 1.
  destruct (String.eqb (trim (or_empty (client r))) ""); simpl;
    [now apply IH | f_equal; now apply IH].
Qed.

Lemma numerals_not_named (names : list string) :
  filter is_named (map snd (index_keys names)) = []
  /\ Forall (fun k => is_named k = false) (map snd (index_keys names)).
Proof.
  destruct (index_keys_sorted names) as [_ A].
  induction (index_keys names) as [|[n k] l IH]; simpl; [split; constructor|].
  inversion A as [|? ? Hk A']; subst. simpl in Hk.
  assert (N : is_named k = false) by (unfold is_named; now rewrite Hk).
  rewrite N. destruct (IH A') as [E F]. split; [exact E | now constructor].
Qed.

Lemma filter_twice {A : Type} (f : A -> bool) (l : list A) :
  filter f (filter f l) = filter f l.
Proof.
  induction l as [|x l IH]; simpl; [reflexivity|].
  destruct (f x) eqn:E; simpl; rewrite ?E, IH; reflexivity.
Qed.

(** X18. The order of the clients view, when no row's trimmed client is a
    name every object inherits.  The names that are not array indices
    (canonical numerals up to 2^32 - 2) stand in the order in which they
    first occur among the rows, after the names that are array indices.
    When no name is an array index the whole view follows the order of
    first occurrence. *)
Theorem clients_in_order_of_appearance (rs : list row) (view : list Client.t) :
  Forall (fun r => inherited (trim (or_empty (client r))) = false) rs ->
  ClientsPage (map row_json rs) = Some view ->
  let seen :=
    first_seen (filter (fun k => negb (String.eqb k ""))
                       (map (fun r => trim (or_empty (client r))) rs)) in
  (exists numerals,
     map Client.name view = numerals ++ filter is_named seen
     /\ Forall (fun k => is_named k = false) numerals)
  /\ filter is_named (map Client.name view) = filter is_named seen
  /\ (Forall (fun k => is_named k = true) seen ->
      map Client.name view = seen).
Proof.
  intros P. unfold ClientsPage.
  destruct (forEach visit (map row_json rs) []) as [m|] eqn:F; [|discriminate].
  intros [= <-]. cbv zeta. rewrite <- (plain_counted_names rs P).
  pose proof (order_forEach rs [] [] m eq_refl F) as O. simpl in O.
  rewrite map_map. simpl. rewrite map_id. unfold Object_keys. rewrite O.
  destruct (numerals_not_named (first_seen (counted_names rs))) as [E N].
  split; [|split].
  - eexists. split; [reflexivity | exact N].
  - now rewrite filter_app, E, filter_twice.
  - intros A. destruct (all_named _ A) as [-> ->]. reflexivity.
Qed.

Lemma clients_in_order_of_appearance_witness :
  Forall (fun r => inherited (trim (or_empty (client r))) = false)
         [of_client 1 "Beta" ""; of_client 2 " Acme" "";
          of_client 3 "Beta " "b@x"]
  /\ ClientsPage (map row_json [of_client 1 "Beta" ""; of_client 2 " Acme" "";
                                of_client 3 "Beta " "b@x"])
     = Some [Client.make "Beta" (JStr "b@x") 2; Client.make "Acme" (JStr "") 1]
  /\ map Client.name
         [Client.make "Beta" (JStr "b@x") 2; Client.make "Acme" (JStr "") 1]
     = ["Beta"; "Acme"].
Proof.
  assert (P : Forall (fun r => inherited (trim (or_empty (client r))) = false)
                     [of_client 1 "Beta" ""; of_client 2 " Acme" "";
                      of_client 3 "Beta " "b@x"]) by (repeat constructor).
  assert (E : ClientsPage (map row_json [of_client 1 "Beta" "";
                                         of_client 2 " Acme" "";
                                         of_client 3 "Beta " "b@x"])
              = Some [Client.make "Beta" (JStr "b@x") 2;
                      Client.make "Acme" (JStr "") 1]) by reflexivity.
  split; [exact P|]. split; [exact E|].
  apply (proj2 (proj2 (clients_in_order_of_appearance _ _ P E))).
  repeat constructor.
Defined.

(** * Properties of the charts and of the form *)

Section Summary.

Lemma finished_rows (rs : list row) :
  Array_filter (fun p => option_map truthy (member p "finished"))
               (map row_json rs)
  = Some (map row_json (filter (fun r => negb (finished r =? 0)) rs)).
Proof.
  induction rs as [|x rs IH]; [reflexivity|].
  change (map row_json (x :: rs)) with (row_json x :: map row_json rs).
  cbn [Array_filter]. rewrite IH.
  change (member (row_json x) "finished")
    with (Some (JNum (inject_Z (finished x)))).
  cbn [option_map filter]. rewrite truthy_flag.
  destruct (finished x =? 0); reflexivity.
Qed.

Lemma split_length {A : Type} (f : A -> bool) (l : list A) :
  (List.length (filter (fun x => negb (f x)) l) + List.length (filter f l)
   = List.length l)%nat.
Proof.
  induction l as [|x l IH]; simpl; [reflexivity|].
  destruct (f x); simpl; lia.
Qed.

Lemma filtered_length {A : Type} (f : A -> option bool) (l kept : list A) :
  Array_filter f l = Some kept -> (List.length kept <= List.length l)%nat.
Proof.
  revert kept. induction l as [|x l IH]; simpl; intros kept.
  - intros [= <-]. simpl. lia.
  - destruct (f x) as [b|]; [|discriminate].
    destruct (Array_filter f l) as [r|]; [|discriminate].
    intros [= <-]. specialize (IH r eq_refl). destruct b; simpl; lia.
Qed.

End Summary.

(** X19. The summary chart: for a list of rows the two bars are the number
    of rows whose finished is not 0 and the number of rows whose finished
    is 0; for any list that can be read, both bars are non-negative and add
    up to the length of the list. *)
Theorem summary_counts :
  (forall rs : list row,
     summaryData (map row_json rs)
     = Some [ Z.of_nat (List.length (filter (fun r => negb (finished r =? 0)) rs));
              Z.of_nat (List.length (filter (fun r => finished r =? 0) rs)) ])
  /\ (forall ps bars, summaryData ps = Some bars ->
        exists f p, bars = [f; p] /\ 0 <= f /\ 0 <= p
                    /\ f + p = Z.of_nat (List.length ps)).
Proof.
  split.
  - intros rs. unfold summaryData. rewrite finished_rows, !length_map.
    pose proof (split_length (fun r => finished r =? 0) rs) as L.
    do 3 f_equal. lia.
  - intros ps bars. unfold summaryData.
    destruct (Array_filter _ ps) as [kept|] eqn:E; [|discriminate].
    intros [= <-]. apply filtered_length in E.
    eexists _, _. split; [reflexivity|]. lia.
Qed.

Section Form.

Variable parseFloat : jsval -> option Q.

Lemma blank_typed : typed_form blank_form.
Proof. exists "", "", "", "", "", (JNum 0), (JNum 0), false, "". reflexivity. Qed.

Lemma handleChange_typed (fs : list (string * jsval)) (e : Target.t) :
  typed_form fs -> from_control e -> typed_form (handleChange fs e).
Proof.
  intros (t & d & p & c & k & a & pr & f & ds & ->) H.
  unfold from_control, controls in H. unfold handleChange.
  destruct e as [n v ty ch]. simpl in *.
  repeat (destruct H as [H|H]; [injection H as <- <-; simpl|]);
    try contradiction.
  - exists v, d, p, c, k, a, pr, f, ds. reflexivity.
  - exists t, v, p, c, k, a, pr, f, ds. reflexivity.
  - exists t, d, v, c, k, a, pr, f, ds. reflexivity.
  - exists t, d, p, v, k, a, pr, f, ds. reflexivity.
  - exists t, d, p, c, v, a, pr, f, ds. reflexivity.
  - exists t, d, p, c, k, (JStr v), pr, f, ds. reflexivity.
  - exists t, d, p, c, k, a, (JStr v), f, ds. reflexivity.
  - exists t, d, p, c, k, a, pr, ch, ds. reflexivity.
  - exists t, d, p, c, k, a, pr, f, v. reflexivity.
Qed.

Lemma changes_typed (es : list Target.t) (fs : list (string * jsval)) :
  typed_form fs -> Forall from_control es ->
  typed_form (fold_left handleChange es fs).
Proof.
  revert fs. induction es as [|e es IH]; intros fs T F; simpl; [exact T|].
  inversion F; subst. apply IH; [now apply handleChange_typed | assumption].
Qed.

Lemma submit_typed (fs : list (string * jsval)) :
  typed_form fs ->
  (fst (handleSubmit parseFloat fs) = None
   <-> prop fs "title" = JStr "" \/ prop fs "deadline" = JStr ""
       \/ prop fs "person" = JStr "")
  /\ (forall payload, fst (handleSubmit parseFloat fs) = Some payload ->
      exists b t d p,
        destructure payload = Some b
        /\ Body.title b = Some t /\ t <> ""
        /\ Body.deadline b = Some d /\ d <> ""
        /\ Body.person b = Some p /\ p <> ""
        /\ (Body.finished b = JNum 0 \/ Body.finished b = JNum 1)).
Proof.
  intros (t & d & p & c & k & a & pr & f & ds & ->).
  unfold handleSubmit, prop. simpl.
  destruct (String.eqb_spec t "") as [->|Ht]; simpl.
  { split; [split; auto|discriminate]. }
  destruct (String.eqb_spec d "") as [->|Hd]; simpl.
  { split; [split; auto|discriminate]. }
  destruct (String.eqb_spec p "") as [->|Hp]; simpl.
  { split; [split; auto|discriminate]. }
  split.
  - split; [discriminate|]. intros [H|[H|H]]; injection H; contradiction.
  - intros payload [= <-]. eexists _, t, d, p.
    split; [reflexivity|]. simpl.
    repeat (split; [first [reflexivity | assumption]|]).
    destruct f; auto.
Qed.

End Form.

(** X20. The form and the server agree on what can be saved.  Whatever
    the user has entered through the form's controls, [handleSubmit] hands
    nothing to [onAdd] exactly when title, deadline or person is empty;
    and a payload it does hand over is read by the server as a body with
    non-empty title, deadline and person and a finished of 0 or 1, so that
    Create answers 201, never 400. *)
Theorem form_submits_only_saveable (parseFloat : jsval -> option Q)
  (es : list Target.t) :
  Forall from_control es ->
  let formState := fold_left handleChange es blank_form in
  (fst (handleSubmit parseFloat formState) = None
   <-> prop formState "title" = JStr "" \/ prop formState "deadline" = JStr ""
       \/ prop formState "person" = JStr "")
  /\ (forall payload,
        fst (handleSubmit parseFloat formState) = Some payload ->
        snd (handleSubmit parseFloat formState) = blank_form
        /\ exists b,
             destructure payload = Some b
             /\ (Body.finished b = JNum 0 \/ Body.finished b = JNum 1)
             /\ forall s, status (snd (app_post s b)) = 201).
Proof.
  intros F. cbv zeta.
  pose proof (changes_typed es blank_form blank_typed F) as T.
  destruct (submit_typed parseFloat _ T) as [N S].
  split; [exact N|]. intros payload H. split.
  - unfold handleSubmit in *.
    destruct (negb (truthy (prop (fold_left handleChange es blank_form) "title"))
              || negb (truthy (prop (fold_left handleChange es blank_form) "deadline"))
              || negb (truthy (prop (fold_left handleChange es blank_form) "person")));
      [discriminate | reflexivity].
  - destruct (S payload H)
      as (b & t & d & p & D & Ht & Hte & Hd & Hde & Hp & Hpe & Fl).
    exists b. split; [exact D|]. split; [exact Fl|].
    intros s. now rewrite (app_post_accepted s b t d p Ht Hte Hd Hde Hp Hpe).
Qed.

Lemma form_submits_only_saveable_witness :
  Forall from_control
    [Target.make "title" "Website" "text" false;
     Target.make "deadline" "2024-12-01" "date" false;
     Target.make "person" "Alice" "text" false;
     Target.make "finished" "on" "checkbox" true]
  /\ exists payload b,
       fst (handleSubmit (fun _ => None)
              (fold_left handleChange
                 [Target.make "title" "Website" "text" false;
                  Target.make "deadline" "2024-12-01" "date" false;
                  Target.make "person" "Alice" "text" false;
                  Target.make "finished" "on" "checkbox" true]
                 blank_form))
       = Some payload
       /\ destructure payload = Some b
       /\ status (snd (app_post empty_store b)) = 201.
Proof.
  assert (F : Forall from_control
                [Target.make "title" "Website" "text" false;
                 Target.make "deadline" "2024-12-01" "date" false;
                 Target.make "person" "Alice" "text" false;
                 Target.make "finished" "on" "checkbox" true]).
  { repeat constructor; unfold from_control; simpl; tauto. }
  split; [exact F|].
  destruct (form_submits_only_saveable (fun _ => None) _ F) as [_ S].
  eexists. destruct (S _ eq_refl) as (_ & b & D & _ & A).
  exists b. split; [reflexivity|]. split; [exact D | exact (A empty_store)].
Defined.
